(** * pyDash: the process sampler, the I/O rate cache and the GPU probe

    A shallow embedding of [src/app.py] (the three functions that [main]
    exposes to the front end: [get_system_stats], [get_processes] and
    [terminate_process]) together with the properties of the
    specification that can be settled on it.

    Conventions of the embedding.
    - Python [int] is [Z]; Python [float] is modelled by the rationals [Q]
      (the arithmetic of the program is kept expression by expression,
      rounding is not modelled).
    - Python [str] is [string], a character being a code point below
      256; a [dict] used as a map is a [gmap].
    - A call that may raise returns a [result]; [try]/[except] is
      [try_except].  Only subclasses of [Exception] are modelled.
    - The operating system (psutil, the clock, the PATH, the external
      tool) is an explicit environment record read by each call; the
      closure variable [io_cache] is threaded as explicit state. *)

From Stdlib Require Import ZArith QArith List Ascii String Sorted Permutation DecimalString.
From stdpp Require Import base tactics option list gmap strings.

Set Warnings "-clear-no-such-hyp".

Local Open Scope Z_scope.
Local Open Scope string_scope.

(** ** Exceptions *)

Module Exc.

(** The exception classes the program can meet; all derive from
    [Exception]. *)
Inductive exn_class :=
  | ValueError | IndexError | TypeError | OSError
  | CalledProcessError | NoSuchProcess | AccessDenied | ZombieProcess.

(** An exception object: its class and [str(e)]. *)
Record exn := Exn { exn_cls : exn_class; exn_str : string }.

Inductive result (A : Type) :=
  | Ok (a : A)
  | Raise (e : exn).
Arguments Ok {A} a.
Arguments Raise {A} e.

Definition bind {A B} (m : result A) (k : A → result B) : result B :=
  match m with
  | Ok a => k a
  | Raise e => Raise e
  end.

(** [try: body except Exception: handler] *)
Definition try_except {A} (body : result A) (handler : exn → result A) : result A :=
  match body with
  | Ok a => Ok a
  | Raise e => handler e
  end.

#[global] Instance exn_class_eq_dec : EqDecision exn_class.
Proof. solve_decision. Defined.

(** [try: body except cls: handler]: other classes propagate. *)
Definition try_except_cls {A} (cls : exn_class) (body : result A)
    (handler : exn → result A) : result A :=
  match body with
  | Ok a => Ok a
  | Raise e => if decide (exn_cls e = cls) then handler e else Raise e
  end.

(** [l[i]] *)
Definition index {A} (l : list A) (i : nat) : result A :=
  match l !! i with
  | Some a => Ok a
  | None => Raise (Exn IndexError "list index out of range")
  end.

End Exc.
Import Exc.

#[global] Instance result_ret : MRet result := @Ok.
#[global] Instance result_bind : MBind result := fun A B k m => Exc.bind m k.

(** ** Strings: [str.strip], [str.split] *)

Module Str.

(** The characters below 256 for which [str.isspace] holds: tab to
    carriage return, the four separators, space, NEL and the no-break
    space. *)
Definition isspace (c : ascii) : bool :=
  let n := nat_of_ascii c in
  ((9 <=? n)%nat && (n <=? 13)%nat) || ((28 <=? n)%nat && (n <=? 32)%nat)
  || (n =? 133)%nat || (n =? 160)%nat.

Fixpoint lstrip (s : string) : string :=
  match s with
  | String c s' => if isspace c then lstrip s' else s
  | EmptyString => EmptyString
  end.

(** [rstrip] drops the trailing white space: a character is kept if it
    is not white space or if something is kept after it. *)
Fixpoint rstrip (s : string) : string :=
  match s with
  | String c s' =>
      match rstrip s' with
      | EmptyString => if isspace c then EmptyString else String c EmptyString
      | r => String c r
      end
  | EmptyString => EmptyString
  end.

(** [s.strip()] *)
Definition strip (s : string) : string := rstrip (lstrip s).

(** [s.split(sep)] for a one-character separator: never empty, an empty
    string gives one empty field. *)
Fixpoint split (sep : ascii) (s : string) : list string :=
  match s with
  | EmptyString => [EmptyString]
  | String c s' =>
      if Ascii.eqb c sep then EmptyString :: split sep s'
      else match split sep s' with
           | f :: fs => String c f :: fs
           | [] => [String c EmptyString]
           end
  end.

Definition newline : ascii := ascii_of_nat 10.
Definition comma : ascii := ","%char.

End Str.

(** ** The built-in conversions [int(s)] and [float(s)]

    They belong to the language, not to the repository: the sampler is
    stated over any pair of conversions, [None] standing for
    [ValueError].  [float] yields the value of the literal as a
    rational. *)
Class Builtins := {
  py_int : string → option Z;
  py_float : string → option Q;
}.

Definition int `{Builtins} (s : string) : result Z :=
  match py_int s with
  | Some z => Ok z
  | None => Raise (Exn ValueError ("invalid literal for int() with base 10: " ++ s))
  end.

Definition float `{Builtins} (s : string) : result Q :=
  match py_float s with
  | Some q => Ok q
  | None => Raise (Exn ValueError ("could not convert string to float: " ++ s))
  end.


(** ** Numbers *)

(** [x > y] on floats. *)
Definition Qgtb (x y : Q) : bool := negb (Qle_bool x y).

(** [v or 0] for an optional number: [None] and zero are falsy. *)
Definition or_zero (v : option Q) : Q :=
  match v with
  | Some q => if Qeq_bool q 0 then 0%Q else q
  | None => 0%Q
  end.

(** [v or 1] for an optional integer. *)
Definition or_one (v : option Z) : Z :=
  match v with
  | Some n => if decide (n = 0) then 1 else n
  | None => 1
  end.

(** ** The data of the program *)

(** The external tool, as the two library calls the program makes:
    [shutil.which('nvidia-smi')] (truthy or not) and
    [_check_output_hidden(cmd)] (lines 11-27), which returns the text the
    command printed or raises. *)
Record tool_env := {
  which_nvidia_smi : bool;
  check_output_hidden : list string → result string;
}.

(** psutil's [virtual_memory()] and [disk_usage('/')]. *)
Record svmem := { vm_total : Z; vm_available : Z; vm_percent : Q; vm_used : Z }.
Record sdiskusage := { du_total : Z; du_used : Z; du_free : Z; du_percent : Q }.

Record gpu_memory_stats := { gm_used : Q; gm_total : Q }.
Record gpu_stats := { g_percent : Q; g_name : string; g_memory : gpu_memory_stats }.

Record system_stats := {
  st_cpu : Q;
  st_memory : svmem;
  st_disk : sdiskusage;
  st_gpu : gpu_stats;
}.

(** The fields of psutil's [pio] tuple that the program reads. *)
Record pio := { read_bytes : Z; write_bytes : Z }.

(** [proc.info] for the attributes asked of [process_iter]; an attribute
    psutil could not read is [None]. *)
Record pinfo := {
  p_pid : Z;
  p_name : option string;
  p_cpu_percent : option Q;
  p_memory_percent : option Q;
  p_io_counters : option pio;
}.

(** [pinfo] once the loop has added ['disk_io'] and ['gpu_memory']. *)
Record sample := {
  s_pid : Z;
  s_name : option string;
  s_cpu_percent : option Q;
  s_memory_percent : option Q;
  s_io_counters : option pio;
  s_disk_io : Q;
  s_gpu_memory : Q;
}.

(** A value of [io_cache]: [{'bytes': total_bytes, 'time': timestamp}]. *)
Record io_entry := { bytes : Z; time : Q }.

(** What one call reads from the machine. *)
Record os_env := {
  tool : tool_env;
  cpu_percent : Q;                (* psutil.cpu_percent(interval=0.1) *)
  virtual_memory : svmem;         (* psutil.virtual_memory() *)
  disk_usage : sdiskusage;        (* psutil.disk_usage('/') *)
  cpu_count : option Z;           (* psutil.cpu_count() *)
  time_time : Q;                  (* time.time() *)
  process_iter : list pinfo;      (* psutil.process_iter([...]) *)
}.

(** ** [get_system_stats] (lines 68-123) *)

Definition gpu_default : gpu_stats :=
  {| g_percent := 0; g_name := "N/A"; g_memory := {| gm_used := 0; gm_total := 0 |} |}.

Definition query_gpu_name : list string :=
  ["nvidia-smi"; "--query-gpu=name"; "--format=csv,noheader"].
Definition query_gpu_stats : list string :=
  ["nvidia-smi"; "--query-gpu=utilization.gpu,memory.total,memory.used";
   "--format=csv,noheader,nounits"].
Definition query_compute_apps : list string :=
  ["nvidia-smi"; "--query-compute-apps=pid,used_memory";
   "--format=csv,noheader,nounits"].

Section Sampler.
Context `{Builtins}.

(** The body of the [try] of lines 82-104. *)
Definition gpu_stats_try (t : tool_env) : result gpu_stats :=
  name_output ← check_output_hidden t query_gpu_name;
  gpu_name ← index (Str.split Str.newline (Str.strip name_output)) 0;
  stats_output ← check_output_hidden t query_gpu_stats;
  line ← index (Str.split Str.newline (Str.strip stats_output)) 0;
  vals ← mapM float (Str.split Str.comma line);
  v0 ← index vals 0;
  v1 ← index vals 1;
  v2 ← index vals 2;
  mret {| g_percent := v0; g_name := gpu_name;
          g_memory := {| gm_total := v1 * 1024 * 1024;   (* MB to Bytes *)
                         gm_used := v2 * 1024 * 1024 |} |}.

(** Lines 80-106: the global probe. *)
Definition gpu_probe (t : tool_env) : result gpu_stats :=
  let gpu_stats := gpu_default in
  if which_nvidia_smi t then
    try_except (gpu_stats_try t) (fun _ => mret gpu_stats)
  else mret gpu_stats.

Definition get_system_stats (e : os_env) : result system_stats :=
  let cpu_percent := cpu_percent e in
  let memory := virtual_memory e in
  let disk := disk_usage e in
  gpu_stats ← gpu_probe (tool e);
  mret {| st_cpu := cpu_percent; st_memory := memory; st_disk := disk;
          st_gpu := gpu_stats |}.

(** ** [get_processes] (lines 128-209) *)

(** Lines 146-154: one line of the tool's per-process table. *)
Definition gpu_map_line (gpu_map : gmap Z Q) (line : string) : result (gmap Z Q) :=
  if bool_decide (line ≠ "") then
    let parts := Str.split Str.comma line in
    if bool_decide (length parts = 2%nat) then
      try_except_cls ValueError
        (p0 ← index parts 0;
         pid ← int p0;
         p1 ← index parts 1;
         mem_mb ← float p1;
         mret (<[pid := mem_mb]> gpu_map))
        (fun _ => mret gpu_map)
    else mret gpu_map
  else mret gpu_map.

(** The [for] of line 145, over the map built so far. *)
Fixpoint gpu_map_lines (gpu_map : gmap Z Q) (lines : list string) : result (gmap Z Q) :=
  match lines with
  | [] => mret gpu_map
  | line :: rest => gpu_map ← gpu_map_line gpu_map line; gpu_map_lines gpu_map rest
  end.

(** The body of the [try] of lines 140-154. *)
Definition gpu_map_try (t : tool_env) : result (gmap Z Q) :=
  output ← check_output_hidden t query_compute_apps;
  gpu_map_lines ∅ (Str.split Str.newline (Str.strip output)).

(** Lines 137-156: the per-process probe.  No exception leaves
    [gpu_map_line], so the handler runs only when the invocation itself
    raised, before anything was stored in [gpu_map]. *)
Definition gpu_process_map (t : tool_env) : result (gmap Z Q) :=
  let gpu_map := ∅ in
  if which_nvidia_smi t then
    try_except (gpu_map_try t) (fun _ => mret gpu_map)
  else mret gpu_map.

(** Line 164. *)
Definition is_idle_name (n : option string) : bool :=
  bool_decide (n = Some "System Idle Process" ∨ n = Some "Idle").

(** Lines 171-184: the rate of one process and the cache after it. *)
Definition io_rate_step (current_time : Q) (p : pinfo) (io_cache : gmap Z io_entry)
    : Q * gmap Z io_entry :=
  let io_rate := 0%Q in
  match p_io_counters p with
  | Some c =>
      let total_io := read_bytes c + write_bytes c in
      let io_rate :=
        match io_cache !! p_pid p with
        | Some prev =>
            let time_diff := (current_time - time prev)%Q in
            if Qgtb time_diff 0 then (inject_Z (total_io - bytes prev) / time_diff)%Q
            else io_rate
        | None => io_rate
        end in
      (io_rate, <[p_pid p := {| bytes := total_io; time := current_time |}]> io_cache)
  | None => (io_rate, io_cache)
  end.

(** Lines 167-191 for a process that passed the name filter. *)
Definition make_sample (cpu_count : Z) (current_time : Q) (gpu_map : gmap Z Q)
    (p : pinfo) (io_cache : gmap Z io_entry) : sample * gmap Z io_entry :=
  let cpu := (fun c => (c / inject_Z cpu_count)%Q) <$> p_cpu_percent p in
  let '(io_rate, io_cache) := io_rate_step current_time p io_cache in
  ({| s_pid := p_pid p; s_name := p_name p; s_cpu_percent := cpu;
      s_memory_percent := p_memory_percent p; s_io_counters := p_io_counters p;
      s_disk_io := io_rate;
      s_gpu_memory := default 0%Q (gpu_map !! p_pid p) |}, io_cache).

(** The [for] of lines 158-193: [processes] in enumeration order and the
    cache as mutated by the loop.  The body works on the dictionary that
    [process_iter] has already filled in and raises none of the
    exceptions of line 192. *)
Fixpoint process_loop (cpu_count : Z) (current_time : Q) (gpu_map : gmap Z Q)
    (procs : list pinfo) (io_cache : gmap Z io_entry) : list sample * gmap Z io_entry :=
  match procs with
  | [] => ([], io_cache)
  | p :: rest =>
      if is_idle_name (p_name p) then
        process_loop cpu_count current_time gpu_map rest io_cache
      else
        let '(s, io_cache) := make_sample cpu_count current_time gpu_map p io_cache in
        let '(processes, io_cache) :=
          process_loop cpu_count current_time gpu_map rest io_cache in
        (s :: processes, io_cache)
  end.

(** The fields a sort key can select. *)
Inductive field := cpu_percent_f | memory_percent_f | disk_io_f | gpu_memory_f.

(** [key_map.get(sort_by, 'cpu_percent')], lines 200-206. *)
Definition key_map_get (sort_by : string) : field :=
  if decide (sort_by = "cpu") then cpu_percent_f
  else if decide (sort_by = "memory") then memory_percent_f
  else if decide (sort_by = "disk") then disk_io_f
  else if decide (sort_by = "gpu") then gpu_memory_f
  else cpu_percent_f.

(** [p.get(sort_key)] *)
Definition sample_get (f : field) (s : sample) : option Q :=
  match f with
  | cpu_percent_f => s_cpu_percent s
  | memory_percent_f => s_memory_percent s
  | disk_io_f => Some (s_disk_io s)
  | gpu_memory_f => Some (s_gpu_memory s)
  end.

(** The key of line 208: [p.get(sort_key) or 0]. *)
Definition sort_value (f : field) (s : sample) : Q := or_zero (sample_get f s).

(** [list.sort(key=..., reverse=True)]: a stable sort, largest key
    first; elements with equal keys keep their order. *)
Fixpoint insert_desc {A} (key : A → Q) (x : A) (l : list A) : list A :=
  match l with
  | [] => [x]
  | y :: l' => if Qle_bool (key y) (key x) then x :: l else y :: insert_desc key x l'
  end.

Fixpoint sort_desc {A} (key : A → Q) (l : list A) : list A :=
  match l with
  | [] => []
  | x :: l' => insert_desc key x (sort_desc key l')
  end.

Definition get_processes (e : os_env) (sort_by : string) (io_cache : gmap Z io_entry)
    : result (list sample * gmap Z io_entry) :=
  let cpu_count := or_one (cpu_count e) in
  let current_time := time_time e in
  gpu_map ← gpu_process_map (tool e);
  let '(processes, io_cache) :=
    process_loop cpu_count current_time gpu_map (process_iter e) io_cache in
  let current_pids : gset Z := list_to_set (s_pid <$> processes) in
  let io_cache := filter (fun kv => kv.1 ∈ current_pids) io_cache in
  let sort_key := key_map_get sort_by in
  let processes := sort_desc (sort_value sort_key) processes in
  mret (take 50 processes, io_cache).

End Sampler.

(** ** [terminate_process] (lines 211-220) *)

(** A [psutil.Process] object. *)
Record Process_obj := { handle_pid : Z }.

(** How a call that may end the interpreter itself comes out: it returns
    or raises, or the interpreter is gone and nothing comes back. *)
Inductive outcome (A : Type) :=
  | Returns (r : result A)
  | Killed.
Arguments Returns {A} r.
Arguments Killed {A}.

#[global] Instance outcome_ret : MRet outcome := fun A a => Returns (Ok a).
#[global] Instance outcome_bind : MBind outcome := fun A B k m =>
  match m with
  | Returns (Ok a) => k a
  | Returns (Raise e) => Returns (Raise e)
  | Killed => Killed
  end.

(** [try: body except Exception: handler] around such a call: there is
    nothing to handle when the interpreter is gone. *)
Definition outcome_try_except {A} (body : outcome A) (handler : exn → outcome A)
    : outcome A :=
  match body with
  | Returns (Raise e) => handler e
  | _ => body
  end.

(** The two psutil calls of [terminate_process].  [psutil.Process(pid)]
    returns or raises; [p.terminate()] also ends the interpreter when
    [p] is the process of the service itself. *)
Record process_api := {
  psutil_Process : Z → result Process_obj;
  Process_terminate : Process_obj → outcome unit;
}.

(** The dictionary that [terminate_process] returns. *)
Record action_result := { success : bool; message : string }.

(** [str(n)] *)
Definition str_of_Z (n : Z) : string := NilZero.string_of_int (Z.to_int n).

Definition terminate_process (api : process_api) (pid : Z) : outcome action_result :=
  outcome_try_except
    (p ← Returns (psutil_Process api pid);
     _ ← Process_terminate api p;
     mret {| success := true;
             message := "Process " ++ str_of_Z pid ++ " terminated." |})
    (fun e => mret {| success := false; message := exn_str e |}).

(** ** [_check_output_hidden] (lines 11-27) *)

(** The fields of [subprocess.STARTUPINFO] that the function writes. *)
Record STARTUPINFO := { dwFlags : Z; wShowWindow : Z }.

(** The keyword arguments given to [subprocess.check_output]; a key that
    is not in the dictionary is [None]. *)
Record kwargs := {
  kw_encoding : string;
  kw_stderr : Z;
  kw_creationflags : option Z;
  kw_startupinfo : option STARTUPINFO;
}.

(** What the function reads from [os] and [subprocess]. *)
Record platform := {
  os_name : string;                      (* os.name *)
  subprocess_STDOUT : Z;                 (* subprocess.STDOUT *)
  CREATE_NO_WINDOW : option Z;           (* getattr(subprocess, 'CREATE_NO_WINDOW', None) *)
  new_STARTUPINFO : STARTUPINFO;         (* subprocess.STARTUPINFO() *)
  STARTF_USESHOWWINDOW : Z;
  SW_HIDE : Z;
  check_output : list string → kwargs → result string;
}.

(** Lines 17-26: the dictionary [kwargs] when the call is made. *)
Definition hidden_kwargs (pl : platform) : kwargs :=
  let kwargs := {| kw_encoding := "utf-8"; kw_stderr := subprocess_STDOUT pl;
                   kw_creationflags := None; kw_startupinfo := None |} in
  if decide (os_name pl = "nt") then
    let create_no_window := CREATE_NO_WINDOW pl in
    match create_no_window with
    | Some flags =>
        {| kw_encoding := kw_encoding kwargs; kw_stderr := kw_stderr kwargs;
           kw_creationflags := Some flags; kw_startupinfo := kw_startupinfo kwargs |}
    | None =>
        let si := new_STARTUPINFO pl in
        let si := {| dwFlags := Z.lor (dwFlags si) (STARTF_USESHOWWINDOW pl);
                     wShowWindow := wShowWindow si |} in
        let si := {| dwFlags := dwFlags si; wShowWindow := SW_HIDE pl |} in
        {| kw_encoding := kw_encoding kwargs; kw_stderr := kw_stderr kwargs;
           kw_creationflags := kw_creationflags kwargs; kw_startupinfo := Some si |}
    end
  else kwargs.

Definition _check_output_hidden (pl : platform) (cmd : list string) : result string :=
  check_output pl cmd (hidden_kwargs pl).

(** ** [main]: the choice of the directory of the front end (lines 33-60) *)

(** What the first part of [main] reads: [sys.frozen], [sys._MEIPASS]
    (PyInstaller sets both), the directory of [__file__], and the calls
    of [os.path] and [os] it makes. *)
Record fs_env := {
  sys_frozen : bool;                     (* getattr(sys, 'frozen', False) *)
  sys_MEIPASS : string;
  file_dirname : string;                 (* os.path.dirname(__file__) *)
  path_join : list string → string;      (* os.path.join(...) *)
  path_isdir : string → result bool;
  path_exists : string → result bool;
  os_chdir : string → result unit;
}.

(** Lines 33-45. *)
Definition base_candidates (fs : fs_env) : list string :=
  if sys_frozen fs then
    [path_join fs [sys_MEIPASS fs; "frontend"]; sys_MEIPASS fs]
  else
    let here := file_dirname fs in
    [path_join fs [here; "build"; "frontend"]; path_join fs [here; "frontend"];
     path_join fs [here; "build"]].

(** The condition of line 50, with the short circuit of [and]. *)
Definition has_index (fs : fs_env) (c : string) : result bool :=
  if bool_decide (c ≠ "") then
    d ← path_isdir fs c;
    if (d : bool) then path_exists fs (path_join fs [c; "index.html"]) else mret false
  else mret false.

(** The [for] of lines 48-54: the first candidate for which the
    condition holds; a candidate on which it raises is passed over. *)
Fixpoint find_static_dir (fs : fs_env) (candidates : list string) : option string :=
  match candidates with
  | [] => None
  | c :: rest =>
      match try_except (has_index fs c) (fun _ => mret false) with
      | Ok true => Some c
      | _ => find_static_dir fs rest
      end
  end.

(** Lines 47-60: [static_dir] and the working directory afterwards,
    [cwd] being the one before. *)
Definition choose_static_dir (fs : fs_env) (cwd : string) : option string * string :=
  let static_dir := find_static_dir fs (base_candidates fs) in
  match static_dir with
  | Some d =>
      if bool_decide (d ≠ "") then
        match os_chdir fs d with
        | Ok _ => (static_dir, d)
        | Raise _ => (static_dir, cwd)
        end
      else (static_dir, cwd)
  | None => (static_dir, cwd)
  end.

(** ** Plain decimal literals

    An instance of [Builtins] to run the model on: [int] and [float] on
    the literals the tool prints ([12], [-3], [4096.5]), white space
    around them allowed.  Nothing proved for every [Builtins] depends on
    it. *)
Module Decimal.

Definition digit (c : ascii) : option Z :=
  let n := Z.of_nat (nat_of_ascii c) in
  if ((48 <=? n) && (n <=? 57))%Z then Some (n - 48) else None.

(** The digits of [s] read from the left onto [acc]. *)
Fixpoint digits (acc : Z) (s : string) : option Z :=
  match s with
  | EmptyString => Some acc
  | String c s' => match digit c with
                   | Some d => digits (10 * acc + d) s'
                   | None => None
                   end
  end.

Definition unsigned (s : string) : option Z :=
  match s with
  | EmptyString => None
  | _ => digits 0 s
  end.

Definition signed {A} (neg : A → A) (f : string → option A) (s : string) : option A :=
  match s with
  | String "-" s' => neg <$> f s'
  | String "+" s' => f s'
  | _ => f s
  end.

Definition int_literal (s : string) : option Z :=
  signed Z.opp unsigned (Str.strip s).

Definition unsigned_float (s : string) : option Q :=
  match Str.split "."%char s with
  | [i] => inject_Z <$> unsigned i
  | [i; f] =>
      match unsigned i, unsigned f with
      | Some a, Some b =>
          let scale := 10 ^ Z.of_nat (String.length f) in
          Some (Qred (Qmake (a * scale + b) (Z.to_pos scale)))
      | _, _ => None
      end
  | _ => None
  end.

Definition float_literal (s : string) : option Q :=
  signed Qopp unsigned_float (Str.strip s).

#[global] Instance builtins : Builtins :=
  {| py_int := int_literal; py_float := float_literal |}.

End Decimal.

(** ** Notions used to state the properties *)

(** Largest key first. *)
Definition desc {A} (key : A → Q) (a b : A) : Prop := (key b <= key a)%Q.

(** A process that passes the name filter of line 164. *)
Definition kept (p : pinfo) : Prop := is_idle_name (p_name p) = false.

#[global] Instance kept_dec p : Decision (kept p).
Proof. unfold kept. apply _. Defined.

(** Equality of two rationals as numbers can be decided. *)
#[global] Instance Qeq_decision : RelDecision Qeq := Qeq_dec.

(** A process of the enumeration whose step writes the cache at [pid]:
    it passes the name filter, has that pid, and its counters were
    read. *)
Definition writes (pid : Z) (p : pinfo) : Prop :=
  kept p ∧ p_pid p = pid ∧ is_Some (p_io_counters p).

#[global] Instance writes_dec pid p : Decision (writes pid p).
Proof. unfold writes. apply _. Defined.

(** The entry that line 184 stores for a process at time [now]. *)
Definition entry_at (now : Q) (p : pinfo) : option io_entry :=
  (fun io => {| bytes := read_bytes io + write_bytes io; time := now |})
    <$> p_io_counters p.

(** A string of white space only. *)
Fixpoint all_space (w : string) : bool :=
  match w with
  | EmptyString => true
  | String c w' => Str.isspace c && all_space w'
  end.

(** A tool that prints what [t] prints with [before] in front and
    [after] behind, and fails where [t] fails. *)
Definition padded (before after : string) (t : tool_env) : tool_env :=
  {| which_nvidia_smi := which_nvidia_smi t;
     check_output_hidden := fun cmd =>
       match check_output_hidden t cmd with
       | Ok output => Ok (before ++ output ++ after)
       | Raise err => Raise err
       end |}.

(** The machine [e] with the tool [t]. *)
Definition with_tool (e : os_env) (t : tool_env) : os_env :=
  {| tool := t; cpu_percent := cpu_percent e; virtual_memory := virtual_memory e;
     disk_usage := disk_usage e; cpu_count := cpu_count e; time_time := time_time e;
     process_iter := process_iter e |}.

Section Notions.
Context `{Builtins}.

(** A row of the per-process table that the probe accepts: exactly two
    comma-separated fields, an [int] and a [float]. *)
Definition well_formed_row (line : string) : option (Z * Q) :=
  match Str.split Str.comma line with
  | [p0; p1] => pid ← py_int p0; mem_mb ← py_float p1; Some (pid, mem_mb)
  | _ => None
  end.

(** The lines of the tool's output, as line 145 walks them. *)
Definition output_lines (output : string) : list string :=
  Str.split Str.newline (Str.strip output).

(** The first line of an output, as lines 87 and 94 take it. *)
Definition first_line (output : string) : string :=
  default "" (head (output_lines output)).

(** The accepted rows of an output, in order. *)
Definition gpu_rows (output : string) : list (Z * Q) :=
  omap well_formed_row (output_lines output).

Definition store_row (m : gmap Z Q) (r : Z * Q) : gmap Z Q := <[r.1 := r.2]> m.

(** The map that the per-process probe returns, as a function of the
    tool. *)
Definition gpu_map_of (t : tool_env) : gmap Z Q :=
  if which_nvidia_smi t then
    match check_output_hidden t query_compute_apps with
    | Ok output => foldl store_row ∅ (gpu_rows output)
    | Raise _ => ∅
    end
  else ∅.

(** The megabyte figure that the tool reports for [pid]: the one of the
    last accepted row for that pid. *)
Definition reported_mb (output : string) (pid : Z) : option Q :=
  snd <$> last (filter (fun r => r.1 = pid) (gpu_rows output)).

(** [processes] after the loop and the cache it leaves. *)
Definition observed (e : os_env) (io_cache : gmap Z io_entry) : list sample * gmap Z io_entry :=
  process_loop (or_one (cpu_count e)) (time_time e) (gpu_map_of (tool e))
    (process_iter e) io_cache.

(** The global probe cannot read the tool: it is not on the PATH, or one
    of the two invocations raised, or the first line of the statistics
    has fewer than three fields or a field that [float] rejects. *)
Definition global_unreadable (t : tool_env) : Prop :=
  which_nvidia_smi t = false
  ∨ (∃ err, check_output_hidden t query_gpu_name = Raise err)
  ∨ (∃ err, check_output_hidden t query_gpu_stats = Raise err)
  ∨ (∃ output, check_output_hidden t query_gpu_stats = Ok output ∧
       ((length (Str.split Str.comma (first_line output)) < 3)%nat
        ∨ ∃ f, f ∈ Str.split Str.comma (first_line output) ∧ py_float f = None)).

(** The per-process probe cannot read the tool: it is not on the PATH, or
    the invocation raised, or no line of the output is an accepted row. *)
Definition process_unreadable (t : tool_env) : Prop :=
  which_nvidia_smi t = false
  ∨ (∃ err, check_output_hidden t query_compute_apps = Raise err)
  ∨ (∃ output, check_output_hidden t query_compute_apps = Ok output ∧
       Forall (fun line => well_formed_row line = None) (output_lines output)).

End Notions.

(** ** Machines to run the model on *)

Module Machines.

(** No tool on the PATH. *)
Definition no_tool : tool_env :=
  {| which_nvidia_smi := false;
     check_output_hidden := fun _ => Raise (Exn OSError "nvidia-smi: not found") |}.

(** A tool on the PATH that prints [name] and [stats] for the two global
    queries and [apps] for the per-process one. *)
Definition tool_printing (name stats apps : string) : tool_env :=
  {| which_nvidia_smi := true;
     check_output_hidden := fun cmd =>
       if decide (cmd = query_gpu_name) then Ok name
       else if decide (cmd = query_gpu_stats) then Ok stats
       else Ok apps |}.

(** A tool on the PATH whose every invocation fails. *)
Definition failing_tool : tool_env :=
  {| which_nvidia_smi := true;
     check_output_hidden := fun _ =>
       Raise (Exn CalledProcessError "Command returned non-zero exit status 9.") |}.

Definition machine (t : tool_env) (now : Q) (procs : list pinfo) : os_env :=
  {| tool := t; cpu_percent := 12;
     virtual_memory := {| vm_total := 16000; vm_available := 6000;
                          vm_percent := 62.5; vm_used := 10000 |};
     disk_usage := {| du_total := 500; du_used := 125; du_free := 375;
                      du_percent := 25 |};
     cpu_count := Some 4; time_time := now; process_iter := procs |}.

Definition proc (pid : Z) (name : string) (cpu : Q) (io : option pio) : pinfo :=
  {| p_pid := pid; p_name := Some name; p_cpu_percent := Some cpu;
     p_memory_percent := Some 1%Q; p_io_counters := io |}.

Definition rw (r w : Z) : option pio := Some {| read_bytes := r; write_bytes := w |}.

(** Fifty-one processes, pids 1 to 51, all with counters. *)
Definition crowd : list pinfo :=
  (fun n => proc (Z.of_nat n) "worker" 8 (rw 10 10)) <$> seq 1 51.

(** A process table with pid 42 that can be terminated, pid 4 that is
    protected, pid 4242 that is the service itself, and nothing else. *)
Definition table : process_api :=
  {| psutil_Process := fun pid =>
       if decide (pid = 42 ∨ pid = 4 ∨ pid = 4242) then Ok {| handle_pid := pid |}
       else Raise (Exn NoSuchProcess
                     ("process PID not found (pid=" ++ str_of_Z pid ++ ")"));
     Process_terminate := fun p =>
       if decide (handle_pid p = 4)
       then Returns (Raise (Exn AccessDenied "(pid=4)"))
       else if decide (handle_pid p = 4242) then Killed
       else Returns (Ok ()) |}.

(** The second pass of the scenario of the specification. *)
Definition second_pass : os_env := machine no_tool 1 [proc 100 "a" 8 (rw 1200 800)].
Definition after_first : gmap Z io_entry := {[ 100 := {| bytes := 1000; time := 0 |} ]}.

(** A pass in which the counters of pid 100 cannot be read, and the one
    after it, in which they can. *)
Definition blind_pass : os_env := machine no_tool 1 [proc 100 "a" 8 None].
Definition later_pass : os_env := machine no_tool 4 [proc 100 "a" 8 (rw 3000 1000)].

(** A tool whose per-process table has a good row and a bad one, and
    whose statistics have four columns. *)
Definition odd_tool : tool_env :=
  tool_printing "GeForce" "14, 4096, 500, 7"
    ("100, 5" ++ String Str.newline "bad").

Definition gpu_pass : os_env :=
  machine (tool_printing "GeForce" "14, 4096, 500" "100, 5") 0
    [proc 100 "trainer" 8 None; proc 7 "shell" 16 None].

(** The idle placeholder with the largest CPU reading. *)
Definition idle_pass : os_env :=
  machine no_tool 0 [proc 0 "System Idle Process" 396 None; proc 7 "shell" 16 None;
                     proc 1 "Idle" 99 None].

End Machines.
Import Machines.

(** More machines, for the properties beyond the rate cache. *)
Module Runs.

(** A pass with two processes, one of them cached before with fewer
    bytes than it has now. *)
Definition busy_pass : os_env :=
  machine no_tool 2 [proc 100 "a" 8 (rw 1200 800); proc 7 "shell" 16 (rw 5 5)].

(** The same pass on a machine whose tool fails. *)
Definition busy_pass_failing : os_env :=
  machine failing_tool 2 [proc 100 "a" 8 (rw 1200 800); proc 7 "shell" 16 (rw 5 5)].

(** A tool that answers with two lines for each query. *)
Definition two_gpus : tool_env :=
  tool_printing ("GeForce" ++ String Str.newline "Quadro")
    ("14, 4096, 500" ++ String Str.newline "90, 8192, 100")
    ("100, 5" ++ String Str.newline "7, 9").

(** Two blank lines. *)
Definition blank_lines : string := String Str.newline (String Str.newline "").

(** A development tree in which only [frontend] holds the page. *)
Definition dev_tree : fs_env :=
  {| sys_frozen := false; sys_MEIPASS := ""; file_dirname := "/app";
     path_join := fun parts => foldr (fun a b => if decide (b = "") then a else a ++ "/" ++ b) "" parts;
     path_isdir := fun d =>
       if decide (d = "/app/build/frontend")
       then Raise (Exn OSError "stat failed")
       else Ok (bool_decide (d = "/app/frontend" ∨ d = "/app/build"));
     path_exists := fun f => Ok (bool_decide (f = "/app/frontend/index.html"));
     os_chdir := fun _ => Ok () |}.

(** Windows without [CREATE_NO_WINDOW], and Linux. *)
Definition old_windows : platform :=
  {| os_name := "nt"; subprocess_STDOUT := -2; CREATE_NO_WINDOW := None;
     new_STARTUPINFO := {| dwFlags := 0; wShowWindow := 0 |};
     STARTF_USESHOWWINDOW := 1; SW_HIDE := 0;
     check_output := fun _ _ => Ok "" |}.

Definition linux : platform :=
  {| os_name := "posix"; subprocess_STDOUT := -2; CREATE_NO_WINDOW := None;
     new_STARTUPINFO := {| dwFlags := 0; wShowWindow := 0 |};
     STARTF_USESHOWWINDOW := 1; SW_HIDE := 0;
     check_output := fun _ kw =>
       match kw_creationflags kw, kw_startupinfo kw with
       | None, None => Ok "14, 4096, 500"
       | _, _ => Raise (Exn ValueError "startupinfo is only supported on Windows platforms")
       end |}.

(** Three processes whose CPU, memory, I/O and GPU readings order them
    differently; the cache holds each of them at time 0 with no bytes,
    and the tool lists two of them. *)
Definition mixed_load : os_env :=
  machine (tool_printing "GeForce" "14, 4096, 500" ("3, 300" ++ String Str.newline "2, 100")) 1
    [ {| p_pid := 1; p_name := Some "a"; p_cpu_percent := Some 80%Q;
         p_memory_percent := Some 10%Q; p_io_counters := rw 20 0 |};
      {| p_pid := 2; p_name := Some "b"; p_cpu_percent := Some 40%Q;
         p_memory_percent := Some 30%Q; p_io_counters := rw 10 0 |};
      {| p_pid := 3; p_name := Some "c"; p_cpu_percent := None;
         p_memory_percent := Some 20%Q; p_io_counters := rw 30 0 |} ].

Definition idle_cache : gmap Z io_entry :=
  {[ 1 := {| bytes := 0; time := 0 |}; 2 := {| bytes := 0; time := 0 |};
     3 := {| bytes := 0; time := 0 |} ]}.

(** A tool whose statistics have a field that is no number and whose
    per-process table mixes accepted rows with a row of one field, a row
    of three, an empty line and a row with a field that is no number. *)
Definition mixed_tool : tool_env :=
  tool_printing "GeForce" "14, x"
    ("100, 5" ++ String Str.newline ("bad" ++ String Str.newline ("7, 9, 1"
     ++ String Str.newline (String Str.newline ("200, 6" ++ String Str.newline "100, x"))))).

Definition mixed_machine : os_env :=
  machine mixed_tool 0 [proc 100 "trainer" 8 None; proc 7 "shell" 16 None;
                        proc 200 "render" 4 None].

End Runs.
Import Runs.

Ltac decide_it := apply (bool_decide_unpack _); by vm_compute.

(** * Facts *)

(** ** Facts about the building blocks *)

Lemma split_nonempty sep s : Str.split sep s ≠ [].
Proof.
  induction s as [|c s IH]; simpl; [done|].
  destruct (Ascii.eqb c sep); [done|].
  destruct (Str.split sep s); done.
Qed.

Lemma Qgtb_true x y : Qgtb x y = true ↔ (y < x)%Q.
Proof.
  unfold Qgtb. rewrite negb_true_iff.
  destruct (Qle_bool x y) eqn:E.
  - apply Qle_bool_iff in E. split; [done|]. intros Hlt.
    exfalso. exact (Qlt_not_le _ _ Hlt E).
  - split; [intros _|done]. apply Qnot_le_lt. intros Hle.
    apply Qle_bool_iff in Hle. congruence.
Qed.

Lemma or_zero_default v : (or_zero v == default 0 v)%Q.
Proof.
  destruct v as [q|]; simpl; [|reflexivity].
  destruct (Qeq_bool q 0) eqn:E; [|reflexivity].
  apply Qeq_bool_iff in E. by rewrite E.
Qed.

Section Sorting.
Context {A : Type} (key : A → Q).

Lemma insert_desc_perm x l : Permutation (x :: l) (insert_desc key x l).
Proof.
  induction l as [|y l IH]; simpl; [done|].
  destruct (Qle_bool (key y) (key x)); [done|].
  rewrite perm_swap. by constructor.
Qed.

Lemma sort_desc_perm l : Permutation l (sort_desc key l).
Proof.
  induction l as [|x l IH]; simpl; [done|].
  rewrite <- insert_desc_perm. by constructor.
Qed.

Lemma insert_desc_sorted x l :
  StronglySorted (desc key) l → StronglySorted (desc key) (insert_desc key x l).
Proof.
  induction 1 as [|y l Hl IH Hy]; simpl.
  - repeat constructor.
  - destruct (Qle_bool (key y) (key x)) eqn:E.
    + apply Qle_bool_iff in E.
      constructor; [by constructor|].
      constructor; [done|].
      eapply Forall_impl; [exact Hy|]. intros z Hz.
      unfold desc in *. by eapply Qle_trans.
    + constructor; [done|].
      assert (key x < key y)%Q as Hlt.
      { apply Qnot_le_lt. intros Hle. apply Qle_bool_iff in Hle. congruence. }
      rewrite <- insert_desc_perm. constructor; [|done].
      by apply Qlt_le_weak.
Qed.

Lemma sort_desc_sorted l : StronglySorted (desc key) (sort_desc key l).
Proof.
  induction l as [|x l IH]; simpl; [constructor|].
  by apply insert_desc_sorted.
Qed.

Lemma take_sorted n l : StronglySorted (desc key) l → StronglySorted (desc key) (take n l).
Proof.
  intros Hl. revert n. induction Hl as [|y l Hl IH Hy]; intros [|n]; simpl;
    try constructor; [done|].
  by apply Forall_take.
Qed.

End Sorting.

Lemma sorted_key_equiv {A} (k1 k2 : A → Q) l :
  (∀ a, (k1 a == k2 a)%Q) → StronglySorted (desc k1) l → StronglySorted (desc k2) l.
Proof.
  intros Heq. induction 1 as [|y l Hl IH Hy]; constructor; [done|].
  eapply Forall_impl; [exact Hy|]. intros z. unfold desc.
  by rewrite !Heq.
Qed.

(** *** The rate cache step *)

Section Loop.
Variables (ncpu : Z) (now : Q) (gpu_map : gmap Z Q).

Lemma io_rate_step_lookup p (c : gmap Z io_entry) :
  (io_rate_step now p c).2 !! p_pid p =
    match p_io_counters p with
    | Some io => Some {| bytes := read_bytes io + write_bytes io; time := now |}
    | None => c !! p_pid p
    end.
Proof.
  unfold io_rate_step. destruct (p_io_counters p); simpl; [|done].
  by rewrite lookup_insert_eq.
Qed.

Lemma io_rate_step_other p (c : gmap Z io_entry) pid :
  pid ≠ p_pid p → (io_rate_step now p c).2 !! pid = c !! pid.
Proof.
  intros Hne. unfold io_rate_step. destruct (p_io_counters p); simpl; [|done].
  by rewrite lookup_insert_ne.
Qed.

(** The step reads the cache at the pid of the process only. *)
Lemma io_rate_step_local p (c1 c2 : gmap Z io_entry) :
  c1 !! p_pid p = c2 !! p_pid p →
  (io_rate_step now p c1).1 = (io_rate_step now p c2).1 ∧
  (io_rate_step now p c1).2 !! p_pid p = (io_rate_step now p c2).2 !! p_pid p.
Proof.
  intros Heq. split; [|by rewrite !io_rate_step_lookup, Heq].
  unfold io_rate_step. destruct (p_io_counters p); simpl; [|done].
  by rewrite Heq.
Qed.

Lemma make_sample_fst p (c : gmap Z io_entry) :
  (make_sample ncpu now gpu_map p c).1 =
    {| s_pid := p_pid p; s_name := p_name p;
       s_cpu_percent := (fun x => (x / inject_Z ncpu)%Q) <$> p_cpu_percent p;
       s_memory_percent := p_memory_percent p;
       s_io_counters := p_io_counters p;
       s_disk_io := (io_rate_step now p c).1;
       s_gpu_memory := default 0%Q (gpu_map !! p_pid p) |}.
Proof. unfold make_sample. by destruct (io_rate_step now p c). Qed.

Lemma make_sample_snd p (c : gmap Z io_entry) :
  (make_sample ncpu now gpu_map p c).2 = (io_rate_step now p c).2.
Proof. unfold make_sample. by destruct (io_rate_step now p c). Qed.

Lemma make_sample_local p (c1 c2 : gmap Z io_entry) :
  c1 !! p_pid p = c2 !! p_pid p →
  (make_sample ncpu now gpu_map p c1).1 = (make_sample ncpu now gpu_map p c2).1.
Proof.
  intros Heq. rewrite !make_sample_fst.
  by rewrite (proj1 (io_rate_step_local p c1 c2 Heq)).
Qed.

(** *** The enumeration loop *)

Local Abbreviation loop := (process_loop ncpu now gpu_map).

Ltac case_kept p :=
  let Hk := fresh "Hk" in
  destruct (decide (kept p)) as [Hk|Hk];
  [ rewrite (filter_cons_True kept) by done; unfold kept in Hk; rewrite Hk
  | rewrite (filter_cons_False kept) by done; unfold kept in Hk;
    apply not_false_iff_true in Hk; rewrite Hk ].

Lemma process_loop_cons p rest (c : gmap Z io_entry) :
  loop (p :: rest) c =
    if is_idle_name (p_name p) then loop rest c
    else let r := loop rest (make_sample ncpu now gpu_map p c).2 in
         ((make_sample ncpu now gpu_map p c).1 :: r.1, r.2).
Proof.
  simpl. destruct (is_idle_name (p_name p)); [done|].
  destruct (make_sample ncpu now gpu_map p c) as [s c1]; simpl.
  by destruct (loop rest c1).
Qed.

Lemma process_loop_pids procs (c : gmap Z io_entry) :
  s_pid <$> (loop procs c).1 = p_pid <$> filter kept procs.
Proof.
  revert c. induction procs as [|p rest IH]; intros c; [done|].
  rewrite process_loop_cons. case_kept p; [|apply IH].
  simpl. by rewrite IH, make_sample_fst.
Qed.

Lemma process_loop_length procs (c : gmap Z io_entry) :
  (length (loop procs c).1 ≤ length procs)%nat.
Proof.
  rewrite <- (length_fmap s_pid), process_loop_pids, length_fmap.
  apply length_filter.
Qed.

Lemma process_loop_names procs (c : gmap Z io_entry) :
  Forall (fun s => is_idle_name (s_name s) = false) (loop procs c).1.
Proof.
  revert c. induction procs as [|p rest IH]; intros c; [constructor|].
  rewrite process_loop_cons. destruct (is_idle_name (p_name p)) eqn:E; [apply IH|].
  simpl. constructor; [|apply IH]. by rewrite make_sample_fst.
Qed.

(** The loop leaves the entries of the pids it did not meet. *)
Lemma process_loop_other procs (c : gmap Z io_entry) pid :
  pid ∉ p_pid <$> filter kept procs → (loop procs c).2 !! pid = c !! pid.
Proof.
  revert c. induction procs as [|p rest IH]; intros c; [done|].
  rewrite process_loop_cons. case_kept p; [|apply IH].
  simpl. intros Hnot. apply not_elem_of_cons in Hnot as [Hne Hnot].
  by rewrite IH, make_sample_snd, io_rate_step_other.
Qed.

(** With distinct pids, the sample of a kept process is the one made
    from the cache the pass started with, no other sample has its pid,
    and its cache entry after the loop is the one its own step left. *)
Lemma process_loop_at procs (c : gmap Z io_entry) p :
  NoDup (p_pid <$> procs) → p ∈ procs → kept p →
  (make_sample ncpu now gpu_map p c).1 ∈ (loop procs c).1 ∧
  (∀ s, s ∈ (loop procs c).1 → s_pid s = p_pid p →
        s = (make_sample ncpu now gpu_map p c).1) ∧
  (loop procs c).2 !! p_pid p = (io_rate_step now p c).2 !! p_pid p.
Proof.
  revert c. induction procs as [|q rest IH]; intros c Hnd Hin Hkept.
  { by apply elem_of_nil in Hin. }
  rewrite fmap_cons in Hnd. apply NoDup_cons in Hnd as [Hq Hnd].
  assert (∀ pid, pid ∈ p_pid <$> filter kept rest → pid ∈ p_pid <$> rest) as Hsub.
  { intros pid (x & -> & Hx)%list_elem_of_fmap.
    apply list_elem_of_filter in Hx as [_ Hx]. by apply list_elem_of_fmap_2. }
  rewrite process_loop_cons.
  apply elem_of_cons in Hin as [->|Hin].
  - rewrite Hkept. simpl. split_and!.
    + by left.
    + intros s [->|Hs]%elem_of_cons Hpid; [done|].
      exfalso. apply Hq, Hsub. rewrite <- Hpid.
      apply (list_elem_of_fmap_2 s_pid) in Hs. by rewrite process_loop_pids in Hs.
    + rewrite process_loop_other; [by rewrite make_sample_snd|].
      intros Hin. by apply Hq, Hsub.
  - assert (p_pid p ≠ p_pid q) as Hne.
    { intros Heq. apply Hq. rewrite <- Heq. by apply list_elem_of_fmap_2. }
    destruct (is_idle_name (p_name q)) eqn:E; [by apply IH|].
    simpl. set (c1 := (make_sample ncpu now gpu_map q c).2).
    assert (c1 !! p_pid p = c !! p_pid p) as Hc1.
    { unfold c1. by rewrite make_sample_snd, io_rate_step_other. }
    destruct (IH c1 Hnd Hin Hkept) as (H1 & H2 & H3).
    rewrite (make_sample_local p c1 c Hc1) in H1, H2.
    rewrite (proj2 (io_rate_step_local p c1 c Hc1)) in H3.
    split_and!; [by right| |done].
    intros s [->|Hs]%elem_of_cons Hpid; [|by apply H2].
    rewrite make_sample_fst in Hpid. simpl in Hpid. congruence.
Qed.

End Loop.

(** *** The per-process probe *)

Section Probe.
Context `{Builtins}.

Lemma gpu_map_line_Ok m line :
  gpu_map_line m line = Ok (from_option (store_row m) m (well_formed_row line)).
Proof.
  unfold gpu_map_line, well_formed_row.
  destruct (decide (line = "")) as [->|Hne].
  { by rewrite bool_decide_false by (intros ?; done). }
  rewrite bool_decide_true by done.
  destruct (Str.split Str.comma line) as [|p0 [|p1 [|p2 ps]]]; simpl; try done.
  unfold index, int, float; simpl.
  destruct (py_int p0) as [pid|]; simpl; [|done].
  by destruct (py_float p1) as [mem|]; simpl.
Qed.

Lemma gpu_map_lines_Ok m lines :
  gpu_map_lines m lines = Ok (foldl store_row m (omap well_formed_row lines)).
Proof.
  revert m. induction lines as [|l ls IH]; intros m; simpl; [done|].
  rewrite gpu_map_line_Ok. simpl. rewrite IH.
  by destruct (well_formed_row l).
Qed.

Lemma gpu_process_map_Ok t : gpu_process_map t = Ok (gpu_map_of t).
Proof.
  unfold gpu_process_map, gpu_map_of, gpu_map_try.
  destruct (which_nvidia_smi t); [|done].
  destruct (check_output_hidden t query_compute_apps) as [output|err]; simpl; [|done].
  by rewrite gpu_map_lines_Ok.
Qed.

(** *** One pass, as a function *)

Lemma get_processes_Ok e sort_by (c : gmap Z io_entry) :
  get_processes e sort_by c =
    Ok (take 50 (sort_desc (sort_value (key_map_get sort_by)) (observed e c).1),
        filter (fun kv => kv.1 ∈ (list_to_set (s_pid <$> (observed e c).1) : gset Z))
          (observed e c).2).
Proof.
  unfold get_processes, observed. rewrite gpu_process_map_Ok. simpl.
  by destruct (process_loop _ _ _ _ _).
Qed.

(** What is returned is taken from the samples of the loop. *)
Lemma returned_observed e sort_by (c : gmap Z io_entry) out c' s :
  get_processes e sort_by c = Ok (out, c') → s ∈ out → s ∈ (observed e c).1.
Proof.
  rewrite get_processes_Ok. intros [= <- <-] Hs.
  apply elem_of_take in Hs as (i & Hs & _).
  apply list_elem_of_lookup_2 in Hs.
  by rewrite <- sort_desc_perm in Hs.
Qed.

(** Nothing is cut when at most fifty processes were kept. *)
Lemma observed_returned e sort_by (c : gmap Z io_entry) out c' s :
  (length (filter kept (process_iter e)) ≤ 50)%nat →
  get_processes e sort_by c = Ok (out, c') → s ∈ (observed e c).1 → s ∈ out.
Proof.
  intros Hlen. rewrite get_processes_Ok. intros [= <- <-] Hs.
  rewrite take_ge.
  - by rewrite <- sort_desc_perm.
  - rewrite <- sort_desc_perm. unfold observed.
    by rewrite <- (length_fmap s_pid), process_loop_pids, length_fmap.
Qed.

(** The cache after the pass keeps the loop's entry of an observed pid. *)
Lemma cache_after_observed e sort_by (c : gmap Z io_entry) out c' pid :
  get_processes e sort_by c = Ok (out, c') →
  pid ∈ s_pid <$> (observed e c).1 → c' !! pid = (observed e c).2 !! pid.
Proof.
  rewrite get_processes_Ok. intros [= <- <-] Hs.
  rewrite map_lookup_filter.
  destruct ((observed e c).2 !! pid) as [v|]; simpl; [|done].
  rewrite option_guard_True; [done|]. by apply elem_of_list_to_set.
Qed.

End Probe.

(** *** One process through one pass *)

Section Pass.
Context `{Builtins}.

(** With distinct pids in the enumeration, a kept process gets the rate
    of its own step on the cache the pass started with, and the pass
    ends with the cache entry that this step left. *)
Lemma pass_at e sort_by (c : gmap Z io_entry) p :
  NoDup (p_pid <$> process_iter e) → p ∈ process_iter e → kept p →
  ∃ out c', get_processes e sort_by c = Ok (out, c') ∧
    c' !! p_pid p = (io_rate_step (time_time e) p c).2 !! p_pid p ∧
    (∀ s, s ∈ out → s_pid s = p_pid p →
          s_disk_io s = (io_rate_step (time_time e) p c).1) ∧
    ((length (process_iter e) ≤ 50)%nat → ∃ s, s ∈ out ∧ s_pid s = p_pid p).
Proof.
  intros Hnd Hin Hkept.
  destruct (process_loop_at (or_one (cpu_count e)) (time_time e)
              (gpu_map_of (tool e)) (process_iter e) c p Hnd Hin Hkept)
    as (Hmem & Huniq & Hcache).
  fold (observed e c) in Hmem, Huniq, Hcache.
  eexists _, _. split; [apply get_processes_Ok|].
  pose proof (get_processes_Ok e sort_by c) as Hrun.
  split_and!.
  - rewrite (cache_after_observed _ _ _ _ _ _ Hrun); [done|].
    apply (list_elem_of_fmap_2 s_pid) in Hmem.
    by rewrite make_sample_fst in Hmem.
  - intros s Hs Hpid.
    rewrite (Huniq s (returned_observed _ _ _ _ _ _ Hrun Hs) Hpid).
    by rewrite make_sample_fst.
  - intros Hlen. eexists. split.
    + eapply (observed_returned e sort_by c); [|exact Hrun|exact Hmem].
      etransitivity; [apply length_filter|done].
    + by rewrite make_sample_fst.
Qed.

End Pass.

Lemma Qdiv_neg_pos (a d : Q) : (a < 0 → 0 < d → a / d < 0)%Q.
Proof.
  intros Ha Hd. apply Qlt_shift_div_r; [done|]. by rewrite Qmult_0_l.
Qed.

Lemma inject_Z_neg (z : Z) : z < 0 → (inject_Z z < 0)%Q.
Proof. intros Hz. change 0%Q with (inject_Z 0). by rewrite <- Zlt_Qlt. Qed.

Lemma io_rate_step_cached now p (c : gmap Z io_entry) io prev :
  p_io_counters p = Some io → c !! p_pid p = Some prev →
  let total_io := read_bytes io + write_bytes io in
  ((time prev < now)%Q →
     (io_rate_step now p c).1 = (inject_Z (total_io - bytes prev) / (now - time prev))%Q) ∧
  ((now <= time prev)%Q → (io_rate_step now p c).1 = 0%Q).
Proof.
  intros Hio Hprev. unfold io_rate_step. rewrite Hio, Hprev. simpl. split.
  - intros Hlt. apply Qlt_minus_iff in Hlt.
    by rewrite (proj2 (Qgtb_true (now - time prev) 0) Hlt).
  - intros Hle. destruct (Qgtb (now - time prev) 0) eqn:E; [|done].
    apply Qgtb_true, Qlt_minus_iff in E.
    exfalso. exact (Qlt_not_le _ _ E Hle).
Qed.

Lemma io_rate_step_fresh now p (c : gmap Z io_entry) :
  c !! p_pid p = None → (io_rate_step now p c).1 = 0%Q.
Proof.
  intros Hnone. unfold io_rate_step. rewrite Hnone. by destruct (p_io_counters p).
Qed.

Lemma io_rate_step_no_counters now p (c : gmap Z io_entry) :
  p_io_counters p = None → io_rate_step now p c = (0%Q, c).
Proof. intros Hio. unfold io_rate_step. by rewrite Hio. Qed.

(** The scenario of the specification: pid 100 with 1000 bytes at time 0
    on an empty cache, then 2000 bytes at time 1, then gone. *)
Example scenario_first :
  get_processes (machine no_tool 0 [proc 100 "a" 8 (rw 600 400)]) "cpu" ∅
  = Ok ([{| s_pid := 100; s_name := Some "a"; s_cpu_percent := Some (8 / 4)%Q;
            s_memory_percent := Some 1%Q; s_io_counters := rw 600 400;
            s_disk_io := 0; s_gpu_memory := 0 |}],
        {[ 100 := {| bytes := 1000; time := 0 |} ]}).
Proof. by vm_compute. Qed.

Example scenario_second :
  get_processes (machine no_tool 1 [proc 100 "a" 8 (rw 1200 800)]) "cpu"
    {[ 100 := {| bytes := 1000; time := 0 |} ]}
  = Ok ([{| s_pid := 100; s_name := Some "a"; s_cpu_percent := Some (8 / 4)%Q;
            s_memory_percent := Some 1%Q; s_io_counters := rw 1200 800;
            s_disk_io := 1000; s_gpu_memory := 0 |}],
        {[ 100 := {| bytes := 2000; time := 1 |} ]}).
Proof. by vm_compute. Qed.

Example scenario_third :
  get_processes (machine no_tool 2 []) "cpu" {[ 100 := {| bytes := 2000; time := 1 |} ]}
  = Ok ([], ∅).
Proof. by vm_compute. Qed.

(** ** The rate cache *)

Section RateCache.
Context `{Builtins}.

(** C1. A process whose pid is in the cache and whose counters were read
    gets the rate (current bytes - cached bytes) / (current time - cached
    time) when the current time is later than the cached one (a negative
    number when the counter went down), and 0 otherwise; in both cases
    the pass ends with its cache entry holding the current bytes and
    time. *)
Theorem rate_of_cached_pid e sort_by (c : gmap Z io_entry) p io prev :
  NoDup (p_pid <$> process_iter e) → p ∈ process_iter e → kept p →
  p_io_counters p = Some io → c !! p_pid p = Some prev →
  let now := time_time e in
  let total_io := read_bytes io + write_bytes io in
  ∃ out c', get_processes e sort_by c = Ok (out, c') ∧
    c' !! p_pid p = Some {| bytes := total_io; time := now |} ∧
    (∀ s, s ∈ out → s_pid s = p_pid p →
       ((time prev < now)%Q →
          s_disk_io s = (inject_Z (total_io - bytes prev) / (now - time prev))%Q ∧
          (total_io < bytes prev → (s_disk_io s < 0)%Q)) ∧
       ((now <= time prev)%Q → s_disk_io s = 0%Q)) ∧
    ((length (process_iter e) ≤ 50)%nat → ∃ s, s ∈ out ∧ s_pid s = p_pid p).
Proof.
  intros Hnd Hin Hkept Hio Hprev. simpl.
  destruct (pass_at e sort_by c p Hnd Hin Hkept) as (out & c' & Hrun & Hc & Hrate & Hex).
  destruct (io_rate_step_cached (time_time e) p c io prev Hio Hprev) as [Hpos Hnonpos].
  exists out, c'. split_and!; [done| |  |done].
  - by rewrite Hc, io_rate_step_lookup, Hio.
  - intros s Hs Hpid. rewrite (Hrate s Hs Hpid). split; [|exact Hnonpos].
    intros Hlt. split; [by apply Hpos|].
    intros Hdown. rewrite (Hpos Hlt). apply Qdiv_neg_pos.
    + apply inject_Z_neg. lia.
    + by apply Qlt_minus_iff in Hlt.
Qed.

(** C4. A process whose pid is not in the cache and whose counters were
    read gets rate 0, and the pass ends with a cache entry for it that
    holds the bytes and the time of this observation. *)
Theorem rate_of_fresh_pid e sort_by (c : gmap Z io_entry) p io :
  NoDup (p_pid <$> process_iter e) → p ∈ process_iter e → kept p →
  p_io_counters p = Some io → c !! p_pid p = None →
  ∃ out c', get_processes e sort_by c = Ok (out, c') ∧
    c' !! p_pid p = Some {| bytes := read_bytes io + write_bytes io;
                            time := time_time e |} ∧
    (∀ s, s ∈ out → s_pid s = p_pid p → s_disk_io s = 0%Q) ∧
    ((length (process_iter e) ≤ 50)%nat → ∃ s, s ∈ out ∧ s_pid s = p_pid p).
Proof.
  intros Hnd Hin Hkept Hio Hnone.
  destruct (pass_at e sort_by c p Hnd Hin Hkept) as (out & c' & Hrun & Hc & Hrate & Hex).
  exists out, c'. split_and!; [done| | |done].
  - by rewrite Hc, io_rate_step_lookup, Hio.
  - intros s Hs Hpid. by rewrite (Hrate s Hs Hpid), io_rate_step_fresh.
Qed.

(** C10. A kept process whose counters could not be read gets rate 0 and
    the pass leaves the cache at its pid as it found it: the entry, if
    there was one, is neither rewritten nor evicted.  A later pass that
    does read the counters of that pid then computes the rate against
    that old entry. *)
Theorem no_counters_keeps_baseline e sort_by (c : gmap Z io_entry) p :
  NoDup (p_pid <$> process_iter e) → p ∈ process_iter e → kept p →
  p_io_counters p = None →
  ∃ out c', get_processes e sort_by c = Ok (out, c') ∧
    c' !! p_pid p = c !! p_pid p ∧
    (∀ s, s ∈ out → s_pid s = p_pid p → s_disk_io s = 0%Q) ∧
    ((length (process_iter e) ≤ 50)%nat → ∃ s, s ∈ out ∧ s_pid s = p_pid p) ∧
    (∀ e2 sort_by2 p2 io2 prev,
       NoDup (p_pid <$> process_iter e2) → p2 ∈ process_iter e2 → kept p2 →
       p_pid p2 = p_pid p → p_io_counters p2 = Some io2 →
       c !! p_pid p = Some prev → (time prev < time_time e2)%Q →
       ∃ out2 c2, get_processes e2 sort_by2 c' = Ok (out2, c2) ∧
         ∀ s, s ∈ out2 → s_pid s = p_pid p →
           s_disk_io s = (inject_Z (read_bytes io2 + write_bytes io2 - bytes prev)
                          / (time_time e2 - time prev))%Q).
Proof.
  intros Hnd Hin Hkept Hio.
  destruct (pass_at e sort_by c p Hnd Hin Hkept) as (out & c' & Hrun & Hc & Hrate & Hex).
  rewrite io_rate_step_no_counters in Hc, Hrate by done. simpl in Hc, Hrate.
  exists out, c'. split_and!; [done..|].
  intros e2 sort_by2 p2 io2 prev Hnd2 Hin2 Hkept2 Hpid2 Hio2 Hprev Hlt.
  destruct (pass_at e2 sort_by2 c' p2 Hnd2 Hin2 Hkept2)
    as (out2 & c2 & Hrun2 & _ & Hrate2 & _).
  exists out2, c2. split; [done|].
  intros s Hs Hpid. rewrite <- Hpid2 in Hpid. rewrite (Hrate2 s Hs Hpid).
  rewrite <- Hc, <- Hpid2 in Hprev.
  by apply (io_rate_step_cached (time_time e2) p2 c' io2 prev Hio2 Hprev).
Qed.

End RateCache.

(** ** The result of [get_processes] *)

Section Result.
Context `{Builtins}.

(** C5. The returned list has at most fifty entries and is in descending
    order of the field that the sort key selects: the CPU percentage for
    cpu, the memory percentage for memory, the I/O rate for disk, the GPU
    memory for gpu, and the CPU percentage for any other key; an entry
    without a value for that field counts as 0. *)
Theorem top_fifty_sorted e sort_by (c : gmap Z io_entry) :
  ∃ out c', get_processes e sort_by c = Ok (out, c') ∧
    (length out ≤ 50)%nat ∧
    (sort_by = "cpu" →
       StronglySorted (desc (fun s => default 0%Q (s_cpu_percent s))) out) ∧
    (sort_by = "memory" →
       StronglySorted (desc (fun s => default 0%Q (s_memory_percent s))) out) ∧
    (sort_by = "disk" → StronglySorted (desc s_disk_io) out) ∧
    (sort_by = "gpu" → StronglySorted (desc s_gpu_memory) out) ∧
    (sort_by ≠ "cpu" → sort_by ≠ "memory" → sort_by ≠ "disk" → sort_by ≠ "gpu" →
       StronglySorted (desc (fun s => default 0%Q (s_cpu_percent s))) out).
Proof.
  eexists _, _. split; [apply get_processes_Ok|]. split.
  { rewrite length_take. lia. }
  set (out := take 50 _).
  assert (StronglySorted
            (desc (fun s => default 0%Q (sample_get (key_map_get sort_by) s))) out)
    as Hsorted.
  { apply (sorted_key_equiv (sort_value (key_map_get sort_by))).
    - intros s. apply or_zero_default.
    - apply take_sorted, sort_desc_sorted. }
  clearbody out. split_and!.
  - intros ->. exact Hsorted.
  - intros ->. exact Hsorted.
  - intros ->. exact Hsorted.
  - intros ->. exact Hsorted.
  - intros H1 H2 H3 H4. unfold key_map_get in Hsorted.
    rewrite !decide_False in Hsorted by done. exact Hsorted.
Qed.

(** C7. A sort key outside cpu, memory, disk and gpu gives what the key
    cpu gives: the same entries in the same order (and the same cache). *)
Theorem unknown_key_is_cpu e sort_by (c : gmap Z io_entry) :
  sort_by ≠ "cpu" → sort_by ≠ "memory" → sort_by ≠ "disk" → sort_by ≠ "gpu" →
  get_processes e sort_by c = get_processes e "cpu" c.
Proof.
  intros H1 H2 H3 H4. rewrite !get_processes_Ok.
  assert (key_map_get sort_by = key_map_get "cpu") as ->; [|done].
  unfold key_map_get. by rewrite !decide_False by done.
Qed.

(** C8. No returned entry is named "System Idle Process" or "Idle". *)
Theorem idle_never_returned e sort_by (c : gmap Z io_entry) :
  ∃ out c', get_processes e sort_by c = Ok (out, c') ∧
    Forall (fun s => s_name s ≠ Some "System Idle Process" ∧ s_name s ≠ Some "Idle") out.
Proof.
  eexists _, _. split; [apply get_processes_Ok|].
  pose proof (get_processes_Ok e sort_by c) as Hrun.
  apply Forall_forall. intros s Hs.
  apply (returned_observed _ _ _ _ _ _ Hrun) in Hs.
  pose proof (process_loop_names (or_one (cpu_count e)) (time_time e)
                (gpu_map_of (tool e)) (process_iter e) c) as Hnames.
  rewrite Forall_forall in Hnames. specialize (Hnames s Hs).
  unfold is_idle_name in Hnames. apply bool_decide_eq_false in Hnames.
  split; intros Heq; apply Hnames; [by left|by right].
Qed.

(** C3, as the code has it. After a pass the keys of the cache are among
    the pids of the processes that the pass enumerated and kept; they are
    among the pids returned when at most fifty processes were kept. *)
Theorem cache_keys_observed e sort_by (c : gmap Z io_entry) :
  ∃ out c', get_processes e sort_by c = Ok (out, c') ∧
    dom c' ⊆ list_to_set (p_pid <$> filter kept (process_iter e)) ∧
    ((length (filter kept (process_iter e)) ≤ 50)%nat →
       dom c' ⊆ list_to_set (s_pid <$> out)).
Proof.
  eexists _, _. split; [apply get_processes_Ok|].
  pose proof (get_processes_Ok e sort_by c) as Hrun.
  assert (∀ pid, pid ∈ dom (filter
            (fun kv => kv.1 ∈ (list_to_set (s_pid <$> (observed e c).1) : gset Z))
            (observed e c).2) → pid ∈ s_pid <$> (observed e c).1) as Hkeys.
  { intros pid [v Hv]%elem_of_dom.
    apply map_lookup_filter_Some in Hv as [_ Hv]. simpl in Hv.
    by apply elem_of_list_to_set in Hv. }
  split.
  - intros pid Hpid%Hkeys. apply elem_of_list_to_set.
    unfold observed in Hpid. by rewrite process_loop_pids in Hpid.
  - intros Hlen pid Hpid%Hkeys. apply elem_of_list_to_set.
    apply list_elem_of_fmap in Hpid as (s & -> & Hs).
    apply list_elem_of_fmap_2.
    by eapply (observed_returned e sort_by c); [exact Hlen|exact Hrun|].
Qed.

End Result.

(** C7 at the key "nonsense". *)
Lemma unknown_key_is_cpu_witness :
  "nonsense" ≠ "cpu" ∧ "nonsense" ≠ "memory" ∧ "nonsense" ≠ "disk" ∧ "nonsense" ≠ "gpu" ∧
  get_processes (machine no_tool 1 [proc 7 "a" 8 None; proc 9 "b" 16 None]) "nonsense" ∅
  = get_processes (machine no_tool 1 [proc 7 "a" 8 None; proc 9 "b" 16 None]) "cpu" ∅.
Proof.
  split_and!; [done..|].
  by apply (unknown_key_is_cpu (machine no_tool 1 [proc 7 "a" 8 None; proc 9 "b" 16 None])
              "nonsense" ∅).
Defined.

(** C3 as stated fails: fifty-one processes with counters leave
    fifty-one cache entries, and fifty of them are returned. *)
Lemma cache_keys_not_returned :
  ∃ out c', get_processes (machine no_tool 0 crowd) "cpu" ∅ = Ok (out, c') ∧
    ¬ (dom c' ⊆ list_to_set (s_pid <$> out)).
Proof.
  eexists _, _. split; [apply get_processes_Ok|].
  intros Hsub. specialize (Hsub 51).
  rewrite elem_of_dom, elem_of_list_to_set in Hsub.
  assert (51 ∉ s_pid <$> take 50 (sort_desc (sort_value (key_map_get "cpu"))
                                   (observed (machine no_tool 0 crowd) ∅).1)) as Hnot.
  { apply (bool_decide_unpack _). by vm_compute. }
  apply Hnot, Hsub. eexists. by vm_compute.
Qed.

(** ** The GPU probe *)

Section Gpu.
Context `{Builtins}.

Lemma foldl_store_row_last (rows : list (Z * Q)) (m : gmap Z Q) pid :
  foldl store_row m rows !! pid =
    match last (filter (fun r => r.1 = pid) rows) with
    | Some r => Some r.2
    | None => m !! pid
    end.
Proof.
  revert m. induction rows as [|r rows IH]; intros m; simpl; [done|].
  rewrite IH. destruct (decide (r.1 = pid)) as [Heq|Hne].
  - rewrite filter_cons_True by done. rewrite last_cons.
    destruct (last (filter _ rows)); [done|].
    unfold store_row. by rewrite Heq, lookup_insert_eq.
  - rewrite filter_cons_False by done.
    destruct (last (filter _ rows)); [done|].
    unfold store_row. by rewrite lookup_insert_ne.
Qed.

Lemma process_loop_gpu ncpu now (g : gmap Z Q) procs (c : gmap Z io_entry) :
  Forall (fun s => s_gpu_memory s = default 0%Q (g !! s_pid s))
    (process_loop ncpu now g procs c).1.
Proof.
  revert c. induction procs as [|p rest IH]; intros c; [constructor|].
  rewrite process_loop_cons. destruct (is_idle_name (p_name p)); [apply IH|].
  simpl. constructor; [|apply IH]. by rewrite make_sample_fst.
Qed.

(** C2, as the code has it. With the tool on the PATH and its
    per-process query answered, the GPU memory of a returned entry is the
    megabyte figure that the tool reports for its pid, as reported, and 0
    when the tool reports none. *)
Theorem gpu_memory_is_reported e sort_by (c : gmap Z io_entry) output :
  which_nvidia_smi (tool e) = true →
  check_output_hidden (tool e) query_compute_apps = Ok output →
  ∃ out c', get_processes e sort_by c = Ok (out, c') ∧
    ∀ s, s ∈ out → s_gpu_memory s = default 0%Q (reported_mb output (s_pid s)).
Proof.
  intros Hwhich Hout.
  eexists _, _. split; [apply get_processes_Ok|].
  pose proof (get_processes_Ok e sort_by c) as Hrun.
  intros s Hs. apply (returned_observed _ _ _ _ _ _ Hrun) in Hs.
  pose proof (process_loop_gpu (or_one (cpu_count e)) (time_time e)
                (gpu_map_of (tool e)) (process_iter e) c) as Hgpu.
  rewrite Forall_forall in Hgpu. rewrite (Hgpu s Hs).
  unfold gpu_map_of, reported_mb. rewrite Hwhich, Hout, foldl_store_row_last.
  by destruct (last _).
Qed.

Lemma index_first_line output :
  index (Str.split Str.newline (Str.strip output)) 0 = Ok (first_line output).
Proof.
  unfold index, first_line, output_lines.
  pose proof (split_nonempty Str.newline (Str.strip output)).
  by destruct (Str.split Str.newline (Str.strip output)).
Qed.

Lemma mapM_float_rejects fields f :
  f ∈ fields → py_float f = None → ∃ err, mapM float fields = Raise err.
Proof.
  intros Hin Hf.
  assert (∃ err, float f = Raise err) as [ef Hef].
  { unfold float. rewrite Hf. by eexists. }
  clear Hf. induction fields as [|x fields IH].
  { by apply elem_of_nil in Hin. }
  simpl. destruct (float x) as [q|err] eqn:Ex; simpl; [|by eexists].
  apply elem_of_cons in Hin as [->|Hin]; [congruence|].
  destruct (IH Hin) as [err ->]. by eexists.
Qed.

Lemma mapM_float_length fields vals :
  mapM float fields = Ok vals → length vals = length fields.
Proof.
  revert vals. induction fields as [|x fields IH]; intros vals; simpl.
  { by intros [= <-]. }
  destruct (float x) as [q|]; simpl; [|done].
  destruct (mapM float fields) as [vs|]; simpl; [|done].
  intros [= <-]. simpl. by rewrite (IH vs).
Qed.

Lemma gpu_stats_try_raises t :
  which_nvidia_smi t = true → global_unreadable t → ∃ err, gpu_stats_try t = Raise err.
Proof.
  intros Hwhich [Hno|[[err Hname]|[[err Hstats]|(output & Hstats & Hbad)]]].
  - congruence.
  - unfold gpu_stats_try. rewrite Hname. simpl. by eexists.
  - unfold gpu_stats_try.
    destruct (check_output_hidden t query_gpu_name) as [name|err']; simpl; [|by eexists].
    rewrite index_first_line. simpl. rewrite Hstats. by eexists.
  - unfold gpu_stats_try.
    destruct (check_output_hidden t query_gpu_name) as [name|err']; simpl; [|by eexists].
    rewrite index_first_line. simpl. rewrite Hstats. simpl.
    rewrite index_first_line. simpl.
    destruct Hbad as [Hshort|(f & Hin & Hf)].
    + destruct (mapM float _) as [vals|err'] eqn:Evals; simpl; [|by eexists].
      apply mapM_float_length in Evals. rewrite <- Evals in Hshort.
      destruct vals as [|v0 [|v1 [|v2 vals]]]; simpl in *; try (by eexists); lia.
    + destruct (mapM_float_rejects _ f Hin Hf) as [err' ->]. by eexists.
Qed.

Lemma gpu_probe_total t : ∃ g, gpu_probe t = Ok g.
Proof.
  unfold gpu_probe. destruct (which_nvidia_smi t); [|by eexists].
  destruct (gpu_stats_try t); by eexists.
Qed.

Lemma gpu_probe_default t : global_unreadable t → gpu_probe t = Ok gpu_default.
Proof.
  intros Hbad. unfold gpu_probe.
  destruct (which_nvidia_smi t) eqn:Hwhich; [|done].
  by destruct (gpu_stats_try_raises t Hwhich Hbad) as [err ->].
Qed.

Lemma omap_all_None {A B} (f : A → option B) l :
  Forall (fun x => f x = None) l → omap f l = [].
Proof. induction 1 as [|x l Hx _ IH]; simpl; [done|]. by rewrite Hx. Qed.

Lemma gpu_map_of_empty t : process_unreadable t → gpu_map_of t = ∅.
Proof.
  intros [Hno|[[err Herr]|(output & Hout & Hbad)]]; unfold gpu_map_of.
  - by rewrite Hno.
  - rewrite Herr. by destruct (which_nvidia_smi t).
  - rewrite Hout. unfold gpu_rows. rewrite omap_all_None by done.
    by destruct (which_nvidia_smi t).
Qed.

(** The map built from the lines of an output, pid by pid: the figure
    of the last accepted row for the pid; the lines that are not accepted
    rows play no part. *)
Lemma accepted_rows_lookup lines (m0 : gmap Z Q) pid mem_mb :
  foldl store_row m0 (omap well_formed_row lines) !! pid = Some mem_mb ↔
  (∃ before line after,
     lines = (before ++ line :: after)%list ∧
     well_formed_row line = Some (pid, mem_mb) ∧
     Forall (fun l => ∀ m, well_formed_row l ≠ Some (pid, m)) after)
  ∨ (m0 !! pid = Some mem_mb ∧
     Forall (fun l => ∀ m, well_formed_row l ≠ Some (pid, m)) lines).
Proof.
  revert m0. induction lines as [|l ls IH]; intros m0.
  { simpl. split.
    - intros ?. right. by split.
    - intros [(b & line & a & Heq & _)|[? _]]; [by destruct b|done]. }
  assert (foldl store_row m0 (omap well_formed_row (l :: ls))
          = foldl store_row (from_option (store_row m0) m0 (well_formed_row l))
              (omap well_formed_row ls)) as ->.
  { simpl. by destruct (well_formed_row l). }
  rewrite IH. split.
  - intros [(before & line & after & -> & Hline & Hafter)|[Hm Hls]].
    + left. by exists (l :: before), line, after.
    + destruct (well_formed_row l) as [[pid' mem']|] eqn:El; simpl in Hm.
      * unfold store_row in Hm. simpl in Hm.
        destruct (decide (pid' = pid)) as [->|Hne].
        -- rewrite lookup_insert_eq in Hm. injection Hm as ->.
           left. by exists [], l, ls.
        -- rewrite lookup_insert_ne in Hm by done.
           right. split; [done|]. constructor; [|done].
           intros m. rewrite El. congruence.
      * right. split; [done|]. constructor; [|done].
        intros m. by rewrite El.
  - intros [([|b before] & line & after & Heq & Hline & Hafter)|[Hm Hls]];
      simplify_eq/=.
    + right. split; [|done]. rewrite Hline. simpl.
      unfold store_row. simpl. by rewrite lookup_insert_eq.
    + left. by exists before, line, after.
    + apply Forall_cons in Hls as [Hl Hls]. right. split; [|done].
      destruct (well_formed_row l) as [[pid' mem']|] eqn:El; simpl; [|done].
      unfold store_row. simpl. rewrite lookup_insert_ne; [done|].
      intros ->. by apply (Hl mem').
Qed.

(** C6, as the code has it. Neither call fails, whatever the tool does.
    The global probe gives the defaults when it cannot read the tool.
    The per-process probe walks the lines of the output and skips each
    line that is not an accepted row (exactly two fields, an [int] and a
    [float]): its map holds, for a pid, the figure of the last accepted
    row for that pid, wherever the other lines stand, and every returned
    entry carries the figure of its pid or 0.  When the probe cannot
    read the tool (no tool, a failed invocation, no accepted row) the
    map is empty and every returned entry has GPU memory 0. *)
Theorem gpu_probe_degrades e sort_by (c : gmap Z io_entry) :
  (∃ st, get_system_stats e = Ok st ∧
     (global_unreadable (tool e) → st_gpu st = gpu_default)) ∧
  (∃ out c', get_processes e sort_by c = Ok (out, c') ∧
     (process_unreadable (tool e) →
        gpu_process_map (tool e) = Ok ∅ ∧ ∀ s, s ∈ out → s_gpu_memory s = 0%Q) ∧
     (∀ output,
        which_nvidia_smi (tool e) = true →
        check_output_hidden (tool e) query_compute_apps = Ok output →
        ∃ gpu_map, gpu_process_map (tool e) = Ok gpu_map ∧
          (∀ pid mem_mb,
             gpu_map !! pid = Some mem_mb ↔
             ∃ before line after,
               output_lines output = (before ++ line :: after)%list ∧
               well_formed_row line = Some (pid, mem_mb) ∧
               Forall (fun l => ∀ m, well_formed_row l ≠ Some (pid, m)) after) ∧
          ∀ s, s ∈ out → s_gpu_memory s = default 0%Q (gpu_map !! s_pid s))).
Proof.
  split.
  - unfold get_system_stats.
    destruct (gpu_probe_total (tool e)) as [g Hg]. rewrite Hg. simpl.
    eexists. split; [done|]. simpl. intros Hbad.
    rewrite (gpu_probe_default _ Hbad) in Hg. congruence.
  - eexists _, _. split; [apply get_processes_Ok|].
    pose proof (get_processes_Ok e sort_by c) as Hrun.
    pose proof (process_loop_gpu (or_one (cpu_count e)) (time_time e)
                  (gpu_map_of (tool e)) (process_iter e) c) as Hgpu.
    rewrite Forall_forall in Hgpu.
    split.
    + intros Hbad. rewrite gpu_process_map_Ok, (gpu_map_of_empty _ Hbad).
      split; [done|]. intros s Hs.
      apply (returned_observed _ _ _ _ _ _ Hrun) in Hs.
      rewrite (Hgpu s Hs). by rewrite (gpu_map_of_empty _ Hbad).
    + intros output Hwhich Hout. exists (gpu_map_of (tool e)).
      split; [apply gpu_process_map_Ok|]. split.
      * intros pid mem_mb. unfold gpu_map_of, gpu_rows. rewrite Hwhich, Hout.
        rewrite accepted_rows_lookup. rewrite lookup_empty. naive_solver.
      * intros s Hs. apply (returned_observed _ _ _ _ _ _ Hrun) in Hs.
        by rewrite (Hgpu s Hs).
Qed.

End Gpu.

(** ** Termination *)

(** C9, as the code has it. [terminate_process] never lets an exception
    out.  For every pid whose termination does not end the interpreter
    of the service itself, it returns a dictionary: success with the
    confirmation message when both psutil calls return, failure with the
    text of the exception when the lookup or the termination raises (no
    such process, access denied, or anything else).  When the
    termination ends the interpreter, nothing is returned. *)
Theorem terminate_process_result api pid :
  (∀ err, terminate_process api pid ≠ Returns (Raise err)) ∧
  ((∃ p, psutil_Process api pid = Ok p ∧ Process_terminate api p = Killed) ↔
     terminate_process api pid = Killed) ∧
  ((∀ p, psutil_Process api pid = Ok p → Process_terminate api p ≠ Killed) →
     ∃ r, terminate_process api pid = Returns (Ok r) ∧
       ((∃ p, psutil_Process api pid = Ok p ∧
              Process_terminate api p = Returns (Ok ())) →
          r = {| success := true;
                 message := "Process " ++ str_of_Z pid ++ " terminated." |}) ∧
       (∀ err, psutil_Process api pid = Raise err
               ∨ (∃ p, psutil_Process api pid = Ok p ∧
                       Process_terminate api p = Returns (Raise err)) →
          r = {| success := false; message := exn_str err |})).
Proof.
  unfold terminate_process.
  destruct (psutil_Process api pid) as [p|e1] eqn:E1; simpl.
  - destruct (Process_terminate api p) as [[[]|e2]|] eqn:E2; simpl.
    + split_and!; [done|split; [|done]|].
      * intros (p' & [= <-] & ?). congruence.
      * intros _. eexists. split; [done|]. split; [done|].
        intros err [?|(p' & [= <-] & ?)]; congruence.
    + split_and!; [done|split; [|done]|].
      * intros (p' & [= <-] & ?). congruence.
      * intros _. eexists. split; [done|]. split.
        -- intros (p' & [= <-] & ?). congruence.
        -- intros err [?|(p' & [= <-] & ?)]; congruence.
    + split_and!; [done|split; [done|by exists p]|].
      intros Hlive. by destruct (Hlive p).
  - split_and!; [done|split; [|done]|].
    + intros (p' & ? & _). congruence.
    + intros _. eexists. split; [done|]. split.
      * intros (p' & ? & _). congruence.
      * intros err [[= <-]|(p' & ? & _)]; [done|congruence].
Qed.

(** C9 as stated fails: asked to terminate the service itself, the call
    ends the interpreter and returns nothing. *)
Lemma terminate_self_returns_nothing :
  psutil_Process table 4242 = Ok {| handle_pid := 4242 |} ∧
  Process_terminate table {| handle_pid := 4242 |} = Killed ∧
  terminate_process table 4242 = Killed ∧
  ¬ ∃ r, terminate_process table 4242 = Returns (Ok r).
Proof. split_and!; [done..|]. by intros [r Hr]. Qed.

Example terminate_ok :
  terminate_process table 42
  = Returns (Ok {| success := true; message := "Process 42 terminated." |}).
Proof. reflexivity. Qed.

Example terminate_denied :
  terminate_process table 4 = Returns (Ok {| success := false; message := "(pid=4)" |}).
Proof. reflexivity. Qed.

Example terminate_missing :
  terminate_process table (-1)
  = Returns (Ok {| success := false; message := "process PID not found (pid=-1)" |}).
Proof. reflexivity. Qed.

(** Equal keys keep the order of the enumeration; the idle placeholder
    is gone whatever it reports. *)
Example sorted_stable :
  (fun r => match r with Ok (out, _) => s_pid <$> out | Raise _ => [] end)
    (get_processes (machine no_tool 0 [proc 3 "a" 8 None; proc 5 "b" 16 None;
                                       proc 4 "c" 8 None; proc 0 "Idle" 99 None])
       "nonsense" ∅)
  = [5; 3; 4].
Proof. by vm_compute. Qed.

Example idle_filtered :
  get_processes idle_pass "cpu" ∅
  = Ok ([{| s_pid := 7; s_name := Some "shell"; s_cpu_percent := Some (16 / 4)%Q;
            s_memory_percent := Some 1%Q; s_io_counters := None;
            s_disk_io := 0; s_gpu_memory := 0 |}], ∅).
Proof. by vm_compute. Qed.

(** ** The theorems at concrete machines *)

(** C1 on the second pass of the scenario: (2000 - 1000) / (1 - 0). *)
Lemma rate_of_cached_pid_witness :
  NoDup (p_pid <$> process_iter second_pass) ∧
  proc 100 "a" 8 (rw 1200 800) ∈ process_iter second_pass ∧
  kept (proc 100 "a" 8 (rw 1200 800)) ∧
  after_first !! 100 = Some {| bytes := 1000; time := 0 |} ∧
  ∃ out c', get_processes second_pass "disk" after_first = Ok (out, c') ∧
    c' !! 100 = Some {| bytes := 2000; time := 1 |} ∧
    ∃ s, s ∈ out ∧ s_pid s = 100 ∧ s_disk_io s = (inject_Z (2000 - 1000) / (1 - 0))%Q.
Proof.
  assert (NoDup (p_pid <$> process_iter second_pass)) as Hnd by decide_it.
  assert (proc 100 "a" 8 (rw 1200 800) ∈ process_iter second_pass) as Hin by constructor.
  assert (kept (proc 100 "a" 8 (rw 1200 800))) as Hkept by reflexivity.
  assert (after_first !! 100 = Some {| bytes := 1000; time := 0 |}) as Hprev by reflexivity.
  split_and!; [done..|].
  destruct (rate_of_cached_pid second_pass "disk" after_first
              (proc 100 "a" 8 (rw 1200 800))
              {| read_bytes := 1200; write_bytes := 800 |}
              {| bytes := 1000; time := 0 |} Hnd Hin Hkept eq_refl Hprev)
    as (out & c' & Hrun & Hc & Hrate & Hex).
  exists out, c'. split_and!; [done..|].
  destruct Hex as (s & Hs & Hpid); [simpl; lia|].
  exists s. split_and!; [done..|].
  by apply (Hrate s Hs Hpid).
Defined.

(** C4 on the first pass of the scenario. *)
Lemma rate_of_fresh_pid_witness :
  NoDup (p_pid <$> process_iter (machine no_tool 0 [proc 100 "a" 8 (rw 600 400)])) ∧
  kept (proc 100 "a" 8 (rw 600 400)) ∧
  (∅ : gmap Z io_entry) !! 100 = None ∧
  ∃ out c', get_processes (machine no_tool 0 [proc 100 "a" 8 (rw 600 400)]) "cpu" ∅
            = Ok (out, c') ∧
    c' !! 100 = Some {| bytes := 1000; time := 0 |} ∧
    ∃ s, s ∈ out ∧ s_pid s = 100 ∧ s_disk_io s = 0%Q.
Proof.
  assert (NoDup (p_pid <$> process_iter (machine no_tool 0 [proc 100 "a" 8 (rw 600 400)])))
    as Hnd by decide_it.
  assert (kept (proc 100 "a" 8 (rw 600 400))) as Hkept by reflexivity.
  split_and!; [done..|].
  destruct (rate_of_fresh_pid (machine no_tool 0 [proc 100 "a" 8 (rw 600 400)]) "cpu" ∅
              (proc 100 "a" 8 (rw 600 400))
              {| read_bytes := 600; write_bytes := 400 |}
              Hnd ltac:(constructor) Hkept eq_refl eq_refl)
    as (out & c' & Hrun & Hc & Hrate & Hex).
  exists out, c'. split_and!; [done..|].
  destruct Hex as (s & Hs & Hpid); [simpl; lia|].
  exists s. split_and!; [done..|]. by apply Hrate.
Defined.

(** C10: pid 100 is cached at time 0 with 1000 bytes, a pass at time 1
    cannot read its counters, a pass at time 4 reads 4000 bytes: the rate
    is (4000 - 1000) / (4 - 0). *)
Lemma no_counters_keeps_baseline_witness :
  NoDup (p_pid <$> process_iter blind_pass) ∧
  kept (proc 100 "a" 8 None) ∧
  ∃ out c', get_processes blind_pass "cpu" after_first = Ok (out, c') ∧
    c' !! 100 = Some {| bytes := 1000; time := 0 |} ∧
    (∃ s, s ∈ out ∧ s_pid s = 100 ∧ s_disk_io s = 0%Q) ∧
    ∃ out2 c2, get_processes later_pass "cpu" c' = Ok (out2, c2) ∧
      ∀ s, s ∈ out2 → s_pid s = 100 →
        s_disk_io s = (inject_Z (3000 + 1000 - 1000) / (4 - 0))%Q.
Proof.
  assert (NoDup (p_pid <$> process_iter blind_pass)) as Hnd by decide_it.
  assert (NoDup (p_pid <$> process_iter later_pass)) as Hnd2 by decide_it.
  assert (kept (proc 100 "a" 8 None)) as Hkept by reflexivity.
  assert (kept (proc 100 "a" 8 (rw 3000 1000))) as Hkept2 by reflexivity.
  split_and!; [done..|].
  destruct (no_counters_keeps_baseline blind_pass "cpu" after_first
              (proc 100 "a" 8 None) Hnd ltac:(constructor) Hkept eq_refl)
    as (out & c' & Hrun & Hc & Hrate & Hex & Hlater).
  exists out, c'. split_and!; [done..| |].
  - destruct Hex as (s & Hs & Hpid); [simpl; lia|].
    exists s. split_and!; [done..|]. by apply Hrate.
  - apply (Hlater later_pass "cpu" (proc 100 "a" 8 (rw 3000 1000))
             {| read_bytes := 3000; write_bytes := 1000 |}
             {| bytes := 1000; time := 0 |} Hnd2 ltac:(constructor) Hkept2
             eq_refl eq_refl eq_refl).
    reflexivity.
Defined.

(** C2 as stated fails: the tool reports 5 MB for pid 100 and the entry
    of pid 100 carries 5, not 5 * 1024 * 1024. *)
Lemma gpu_memory_not_bytes :
  ∃ out c', get_processes gpu_pass "gpu" ∅ = Ok (out, c') ∧
    ∃ s, s ∈ out ∧ s_pid s = 100 ∧ s_gpu_memory s = 5%Q ∧
         ¬ (s_gpu_memory s == 5 * 1024 * 1024)%Q.
Proof.
  eexists _, _. split; [by vm_compute|].
  eexists. split; [by left|]. split_and!; [done..|].
  by vm_compute.
Qed.

(** C2, amended, on the same machine. *)
Lemma gpu_memory_is_reported_witness :
  which_nvidia_smi (tool gpu_pass) = true ∧
  check_output_hidden (tool gpu_pass) query_compute_apps = Ok "100, 5" ∧
  ∃ out c', get_processes gpu_pass "gpu" ∅ = Ok (out, c') ∧
    ∀ s, s ∈ out → s_gpu_memory s = default 0%Q (reported_mb "100, 5" (s_pid s)).
Proof.
  split_and!; [done..|].
  by apply (gpu_memory_is_reported gpu_pass "gpu" ∅ "100, 5").
Defined.

Example reported_mb_listed : reported_mb "100, 5" 100 = Some 5%Q.
Proof. reflexivity. Qed.

Example reported_mb_unlisted : reported_mb "100, 5" 7 = None.
Proof. reflexivity. Qed.

(** C6 as stated fails: statistics with four columns are not turned into
    the defaults, and a per-process table with a row of one column keeps
    its other row. *)
Lemma malformed_output_not_default :
  length (Str.split Str.comma (first_line "14, 4096, 500, 7")) = 4%nat ∧
  gpu_probe odd_tool
    = Ok {| g_percent := 14; g_name := "GeForce";
            g_memory := {| gm_used := 524288000; gm_total := 4294967296 |} |} ∧
  gpu_probe odd_tool ≠ Ok gpu_default ∧
  Str.split Str.comma "bad" = ["bad"] ∧
  gpu_process_map odd_tool = Ok {[ 100 := 5%Q ]} ∧
  gpu_process_map odd_tool ≠ Ok ∅.
Proof.
  split_and!; by vm_compute.
Qed.

(** C6, amended, with a tool whose every invocation fails and with one
    whose output mixes accepted rows with other lines. *)
Lemma gpu_probe_degrades_witness :
  global_unreadable failing_tool ∧ process_unreadable failing_tool ∧
  (∃ st, get_system_stats (machine failing_tool 0 [proc 7 "shell" 16 None]) = Ok st ∧
         st_gpu st = gpu_default) ∧
  (∃ out c', get_processes (machine failing_tool 0 [proc 7 "shell" 16 None]) "gpu" ∅
             = Ok (out, c') ∧
     gpu_process_map failing_tool = Ok ∅ ∧ ∀ s, s ∈ out → s_gpu_memory s = 0%Q) ∧
  global_unreadable mixed_tool ∧
  (∃ st, get_system_stats mixed_machine = Ok st ∧ st_gpu st = gpu_default) ∧
  (∃ out c' gpu_map, get_processes mixed_machine "gpu" ∅ = Ok (out, c') ∧
     gpu_process_map mixed_tool = Ok gpu_map ∧
     gpu_map !! 100 = Some 5%Q ∧ gpu_map !! 200 = Some 6%Q ∧
     ∀ s, s ∈ out → s_gpu_memory s = default 0%Q (gpu_map !! s_pid s)).
Proof.
  assert (global_unreadable failing_tool) as Hg.
  { right. left. by eexists. }
  assert (process_unreadable failing_tool) as Hp.
  { right. left. by eexists. }
  assert (global_unreadable mixed_tool) as Hm.
  { do 3 right. exists "14, x". split; [done|]. right. exists " x".
    split; [|done]. right. by left. }
  split_and!; [done..| | |done| |].
  - destruct (gpu_probe_degrades (machine failing_tool 0 [proc 7 "shell" 16 None]) "gpu" ∅)
      as [(st & Hst & Hdef) _].
    exists st. split; [done|]. by apply Hdef.
  - destruct (gpu_probe_degrades (machine failing_tool 0 [proc 7 "shell" 16 None]) "gpu" ∅)
      as [_ (out & c' & Hrun & Hmap & _)].
    exists out, c'. split; [done|]. by apply Hmap.
  - destruct (gpu_probe_degrades mixed_machine "gpu" ∅) as [(st & Hst & Hdef) _].
    exists st. split; [done|]. by apply Hdef.
  - destruct (gpu_probe_degrades mixed_machine "gpu" ∅)
      as [_ (out & c' & Hrun & _ & Hrows)].
    destruct (Hrows _ eq_refl eq_refl) as (gpu_map & Hmap & Hlookup & Hout).
    exists out, c', gpu_map. split_and!; [done..| | |done].
    + apply Hlookup. exists [], "100, 5", ["bad"; "7, 9, 1"; ""; "200, 6"; "100, x"].
      split_and!; [done..|]. repeat constructor; by intros m.
    + apply Hlookup. exists ["100, 5"; "bad"; "7, 9, 1"; ""], "200, 6", ["100, x"].
      split_and!; [done..|]. repeat constructor; by intros m.
Defined.

(** C9 at a pid that cannot be terminated and at one that can. *)
Lemma terminate_process_result_witness :
  (∀ p, psutil_Process table 4 = Ok p → Process_terminate table p ≠ Killed) ∧
  (∀ p, psutil_Process table 42 = Ok p → Process_terminate table p ≠ Killed) ∧
  (∃ r, terminate_process table 4 = Returns (Ok r) ∧
        r = {| success := false; message := "(pid=4)" |}) ∧
  (∃ r, terminate_process table 42 = Returns (Ok r) ∧
        r = {| success := true; message := "Process 42 terminated." |}).
Proof.
  assert (∀ p, psutil_Process table 4 = Ok p → Process_terminate table p ≠ Killed) as H4.
  { by intros p [= <-]. }
  assert (∀ p, psutil_Process table 42 = Ok p → Process_terminate table p ≠ Killed) as H42.
  { by intros p [= <-]. }
  split_and!; [done..| |].
  - destruct (terminate_process_result table 4) as (_ & _ & Hret).
    destruct (Hret H4) as (r & Hr & _ & Hfail).
    exists r. split; [done|].
    apply (Hfail (Exn AccessDenied "(pid=4)")). right. by eexists.
  - destruct (terminate_process_result table 42) as (_ & _ & Hret).
    destruct (Hret H42) as (r & Hr & Hok & _).
    exists r. split; [done|]. apply Hok. by eexists.
Defined.

(** * Further properties of the sampler *)

(** ** What [get_processes] returns *)

Section Returned.
Context `{Builtins}.

Lemma observed_pids e (c : gmap Z io_entry) :
  s_pid <$> (observed e c).1 = p_pid <$> filter kept (process_iter e).
Proof. apply process_loop_pids. Qed.

(** Every sample of the loop is made from a kept process of the
    enumeration, on some cache. *)
Lemma process_loop_from ncpu now (g : gmap Z Q) procs (c : gmap Z io_entry) s :
  s ∈ (process_loop ncpu now g procs c).1 →
  ∃ p c0, p ∈ procs ∧ kept p ∧ s = (make_sample ncpu now g p c0).1.
Proof.
  revert c. induction procs as [|q rest IH]; intros c.
  { intros Hs. by apply elem_of_nil in Hs. }
  rewrite process_loop_cons. destruct (is_idle_name (p_name q)) eqn:E.
  - intros (p & c0 & Hp & Hk & ->)%IH. exists p, c0. split_and!; [by right|done..].
  - simpl. intros [->|Hs]%elem_of_cons.
    + exists q, c. split_and!; [by left|done..].
    + apply IH in Hs as (p & c0 & Hp & Hk & ->).
      exists p, c0. split_and!; [by right|done..].
Qed.

(** The number of entries returned: all the kept processes, cut at
    fifty. *)
Theorem returned_length e sort_by (c : gmap Z io_entry) :
  ∃ out c', get_processes e sort_by c = Ok (out, c') ∧
    length out = (50 `min` length (filter kept (process_iter e)))%nat.
Proof.
  eexists _, _. split; [apply get_processes_Ok|].
  rewrite length_take, <- sort_desc_perm.
  by rewrite <- (length_fmap s_pid), observed_pids, length_fmap.
Qed.

(** Every returned entry comes from a process of the enumeration that
    passed the name filter: pid, name, memory percentage and counters are
    those of the process, and the CPU percentage is the raw one divided
    by the number of cores, a missing or zero count counting as one (the
    divisor is never zero); a missing CPU percentage stays missing. *)
Theorem returned_from_enumeration e sort_by (c : gmap Z io_entry) :
  ∃ out c', get_processes e sort_by c = Ok (out, c') ∧
    or_one (cpu_count e) ≠ 0 ∧
    (cpu_count e = None ∨ cpu_count e = Some 0 → or_one (cpu_count e) = 1) ∧
    ∀ s, s ∈ out →
      ∃ p, p ∈ process_iter e ∧ kept p ∧
        s_pid s = p_pid p ∧ s_name s = p_name p ∧
        s_memory_percent s = p_memory_percent p ∧
        s_io_counters s = p_io_counters p ∧
        s_cpu_percent s =
          (fun x => (x / inject_Z (or_one (cpu_count e)))%Q) <$> p_cpu_percent p.
Proof.
  eexists _, _. split; [apply get_processes_Ok|].
  pose proof (get_processes_Ok e sort_by c) as Hrun. split_and!.
  - unfold or_one. destruct (cpu_count e) as [n|]; [|done]. by case_decide.
  - intros [->| ->]; done.
  - intros s Hs. apply (returned_observed _ _ _ _ _ _ Hrun) in Hs.
    apply process_loop_from in Hs as (p & c0 & Hp & Hk & ->).
    exists p. rewrite make_sample_fst. by split_and!.
Qed.

(** Distinct pids in the enumeration give distinct pids in the result. *)
Theorem returned_pids_distinct e sort_by (c : gmap Z io_entry) :
  NoDup (p_pid <$> process_iter e) →
  ∃ out c', get_processes e sort_by c = Ok (out, c') ∧ NoDup (s_pid <$> out).
Proof.
  intros Hnd. eexists _, _. split; [apply get_processes_Ok|].
  rewrite fmap_take. eapply sublist_NoDup; [|apply sublist_take].
  rewrite <- sort_desc_perm, observed_pids.
  eapply sublist_NoDup; [exact Hnd|]. apply fmap_sublist, sublist_filter.
Qed.

End Returned.

(** ** The order of the result *)

Lemma sorted_app_desc {A} (key : A → Q) (l1 l2 : list A) :
  StronglySorted (desc key) (l1 ++ l2) → ∀ x y, x ∈ l1 → y ∈ l2 → desc key x y.
Proof.
  induction l1 as [|a l1 IH]; simpl; intros Hs x y Hx Hy.
  { by apply elem_of_nil in Hx. }
  apply StronglySorted_inv in Hs as [Hs Ha].
  apply elem_of_cons in Hx as [->|Hx]; [|by apply IH].
  rewrite Forall_forall in Ha. apply Ha, elem_of_app. by right.
Qed.

(** Insertion does not reorder the elements of one key value. *)
Lemma insert_desc_filter {A} (key : A → Q) (v : Q) x (l : list A) :
  filter (fun a => (key a == v)%Q) (insert_desc key x l)
  = filter (fun a => (key a == v)%Q) (x :: l).
Proof.
  induction l as [|y l IH]; simpl; [done|].
  destruct (Qle_bool (key y) (key x)) eqn:E; [done|].
  rewrite (filter_cons _ y), IH, !filter_cons.
  destruct (decide (key y == v)%Q) as [Hy|Hy], (decide (key x == v)%Q) as [Hx|Hx];
    try done.
  exfalso. assert (Qle_bool (key y) (key x) = true); [|congruence].
  apply Qle_bool_iff. rewrite Hx, Hy. apply Qle_refl.
Qed.

Lemma sort_desc_filter {A} (key : A → Q) (v : Q) (l : list A) :
  filter (fun a => (key a == v)%Q) (sort_desc key l)
  = filter (fun a => (key a == v)%Q) l.
Proof.
  induction l as [|x l IH]; simpl; [done|].
  by rewrite insert_desc_filter, !filter_cons, IH.
Qed.

Section Order.
Context `{Builtins}.

(** The entries returned are those with the largest values of the
    selected field: the samples of the pass are the returned ones and
    the dropped ones, and no dropped one has a larger value than a
    returned one. *)
Theorem returned_are_largest e sort_by (c : gmap Z io_entry) :
  ∃ out c', get_processes e sort_by c = Ok (out, c') ∧
    ∃ dropped, out ++ dropped ≡ₚ (observed e c).1 ∧
      ∀ s s', s ∈ out → s' ∈ dropped →
        (default 0 (sample_get (key_map_get sort_by) s')
         <= default 0 (sample_get (key_map_get sort_by) s))%Q.
Proof.
  eexists _, _. split; [apply get_processes_Ok|].
  exists (drop 50 (sort_desc (sort_value (key_map_get sort_by)) (observed e c).1)).
  split.
  - by rewrite take_drop, <- sort_desc_perm.
  - intros s s' Hs Hs'. rewrite <- !or_zero_default.
    apply (sorted_app_desc (sort_value (key_map_get sort_by))
             (take 50 (sort_desc (sort_value (key_map_get sort_by)) (observed e c).1))
             (drop 50 (sort_desc (sort_value (key_map_get sort_by)) (observed e c).1)));
      [|done..].
    rewrite take_drop. apply sort_desc_sorted.
Qed.

(** Entries with the same value of the selected field come in the order
    of the enumeration: the returned entries of one value are the first
    ones of the samples of that value. *)
Theorem ties_keep_enumeration_order e sort_by (c : gmap Z io_entry) :
  ∃ out c', get_processes e sort_by c = Ok (out, c') ∧
    ∀ v : Q,
      filter (fun s => (sort_value (key_map_get sort_by) s == v)%Q) out
      `prefix_of`
      filter (fun s => (sort_value (key_map_get sort_by) s == v)%Q) (observed e c).1.
Proof.
  eexists _, _. split; [apply get_processes_Ok|]. intros v.
  rewrite <- (sort_desc_filter (sort_value (key_map_get sort_by)) v (observed e c).1).
  rewrite <- (take_drop 50 (sort_desc _ (observed e c).1)) at 2.
  rewrite filter_app. by apply prefix_app_r.
Qed.

End Order.

(** ** The cache after a pass *)

Lemma size_list_to_set_le (l : list Z) : (size (list_to_set l : gset Z) ≤ length l)%nat.
Proof.
  induction l as [|x l IH]; simpl; [done|].
  rewrite size_union_alt, size_singleton.
  assert (size (list_to_set l ∖ {[x]} : gset Z) ≤ size (list_to_set l : gset Z))%nat.
  { apply subseteq_size. set_solver. }
  lia.
Qed.

(** The cache after the loop, pid by pid: the entry of the last process
    that wrote it, and the entry from before where none did. *)
Lemma process_loop_lookup ncpu now (g : gmap Z Q) procs (c : gmap Z io_entry) pid :
  (process_loop ncpu now g procs c).2 !! pid =
    match last (filter (writes pid) procs) with
    | Some p => entry_at now p
    | None => c !! pid
    end.
Proof.
  revert c. induction procs as [|q rest IH]; intros c; [done|].
  rewrite process_loop_cons. destruct (is_idle_name (p_name q)) eqn:E.
  { rewrite filter_cons_False; [apply IH|]. intros [Hk _]. unfold kept in Hk. congruence. }
  simpl. rewrite IH, make_sample_snd.
  destruct (decide (writes pid q)) as [Hw|Hw].
  - rewrite filter_cons_True by done. rewrite last_cons.
    destruct (last (filter (writes pid) rest)); [done|].
    destruct Hw as (_ & <- & [io Hio]).
    rewrite io_rate_step_lookup. unfold entry_at. by rewrite Hio.
  - rewrite filter_cons_False by done.
    destruct (last (filter (writes pid) rest)); [done|].
    destruct (decide (pid = p_pid q)) as [->|Hne];
      [|by rewrite io_rate_step_other].
    rewrite io_rate_step_lookup.
    destruct (p_io_counters q) as [io|] eqn:Eio; [|done].
    exfalso. apply Hw. unfold writes, kept. rewrite Eio. by split_and!.
Qed.

(** With every counted process already stamped at [now] or later, the
    loop gives rate 0 throughout. *)
Lemma process_loop_rates_zero ncpu now (g : gmap Z Q) procs (c : gmap Z io_entry) :
  (∀ p, p ∈ procs → kept p → is_Some (p_io_counters p) →
        ∃ v, c !! p_pid p = Some v ∧ (now <= time v)%Q) →
  Forall (fun s => s_disk_io s = 0%Q) (process_loop ncpu now g procs c).1.
Proof.
  revert c. induction procs as [|q rest IH]; intros c Hc; [constructor|].
  rewrite process_loop_cons. destruct (is_idle_name (p_name q)) eqn:E.
  { apply IH. intros p Hp. apply Hc. by right. }
  simpl. constructor.
  - rewrite make_sample_fst. simpl.
    destruct (p_io_counters q) as [io|] eqn:Eio.
    + destruct (Hc q) as (v & Hv & Hle); [by left|done|by rewrite Eio|].
      by apply (io_rate_step_cached now q c io v Eio Hv).
    + by rewrite io_rate_step_no_counters.
  - apply IH. intros p Hp Hk Hio. rewrite make_sample_snd.
    destruct (decide (p_pid p = p_pid q)) as [Heq|Hne].
    + rewrite Heq, io_rate_step_lookup.
      destruct (p_io_counters q) as [io|] eqn:Eio.
      * eexists. split; [done|]. simpl. apply Qle_refl.
      * rewrite <- Heq. apply Hc; [by right|done..].
    + rewrite io_rate_step_other by done. apply Hc; [by right|done..].
Qed.

(** With no counter gone down since it was cached, or the entry stamped
    at [now] or later, the loop gives no negative rate. *)
Lemma process_loop_rates_nonneg ncpu now (g : gmap Z Q) procs (c : gmap Z io_entry) :
  (∀ p io prev, p ∈ procs → p_io_counters p = Some io → c !! p_pid p = Some prev →
        (bytes prev ≤ read_bytes io + write_bytes io)%Z ∨ (now <= time prev)%Q) →
  Forall (fun s => (0 <= s_disk_io s)%Q) (process_loop ncpu now g procs c).1.
Proof.
  revert c. induction procs as [|q rest IH]; intros c Hc; [constructor|].
  rewrite process_loop_cons. destruct (is_idle_name (p_name q)) eqn:E.
  { apply IH. intros p io prev Hp. apply Hc. by right. }
  simpl. constructor.
  - rewrite make_sample_fst. simpl.
    destruct (p_io_counters q) as [io|] eqn:Eio;
      [|rewrite io_rate_step_no_counters by done; apply Qle_refl].
    destruct (c !! p_pid q) as [prev|] eqn:Eprev;
      [|rewrite io_rate_step_fresh by done; apply Qle_refl].
    destruct (io_rate_step_cached now q c io prev Eio Eprev) as [Hpos Hzero].
    destruct (Qlt_le_dec (time prev) now) as [Hlt|Hle];
      [|rewrite (Hzero Hle); apply Qle_refl].
    rewrite (Hpos Hlt).
    destruct (Hc q io prev) as [Hup|Hle]; [by left|done..| |].
    + apply Qmult_le_0_compat.
      * change 0%Q with (inject_Z 0). rewrite <- Zle_Qle. lia.
      * apply Qinv_le_0_compat, Qlt_le_weak. by apply Qlt_minus_iff in Hlt.
    + exfalso. exact (Qlt_not_le _ _ Hlt Hle).
  - apply IH. intros p io prev Hp Hio. rewrite make_sample_snd.
    destruct (decide (p_pid p = p_pid q)) as [Heq|Hne].
    + rewrite Heq, io_rate_step_lookup.
      destruct (p_io_counters q) as [ioq|] eqn:Eio.
      * intros [= <-]. right. simpl. apply Qle_refl.
      * rewrite <- Heq. apply Hc; [by right|done].
    + rewrite io_rate_step_other by done. apply Hc; [by right|done].
Qed.

Section CacheAfter.
Context `{Builtins}.

(** The cache does not grow beyond the processes of the last pass: it
    has at most as many entries as processes were kept, whatever it held
    before. *)
Theorem cache_size_bounded e sort_by (c : gmap Z io_entry) :
  ∃ out c', get_processes e sort_by c = Ok (out, c') ∧
    (size c' ≤ length (filter kept (process_iter e)))%nat.
Proof.
  eexists _, _. split; [apply get_processes_Ok|].
  rewrite <- size_dom.
  etransitivity; [apply subseteq_size|].
  - intros pid [v Hv]%elem_of_dom.
    apply map_lookup_filter_Some in Hv as [_ Hv]. exact Hv.
  - etransitivity; [apply size_list_to_set_le|].
    by rewrite observed_pids, length_fmap.
Qed.

(** The cache that a pass leaves, pid by pid. *)
Lemma pass_cache_lookup e sort_by (c : gmap Z io_entry) out c' pid :
  get_processes e sort_by c = Ok (out, c') →
  c' !! pid =
    if decide (pid ∈ p_pid <$> filter kept (process_iter e)) then
      match last (filter (writes pid) (process_iter e)) with
      | Some p => entry_at (time_time e) p
      | None => c !! pid
      end
    else None.
Proof.
  rewrite get_processes_Ok. intros [= <- <-].
  rewrite map_lookup_filter. unfold observed. rewrite process_loop_lookup.
  case_decide as Hpid.
  - destruct (match last _ with Some _ => _ | None => _ end) as [v|]; simpl; [|done].
    rewrite option_guard_True; [done|].
    apply elem_of_list_to_set. by rewrite process_loop_pids.
  - destruct (match last _ with Some _ => _ | None => _ end) as [v|]; simpl; [|done].
    rewrite option_guard_False; [done|].
    rewrite elem_of_list_to_set. by rewrite process_loop_pids.
Qed.

(** The cache after a pass, entry by entry.  A pid that no kept process
    of the pass has is not in it.  Otherwise its entry is the total of
    the counters of the last kept process with that pid whose counters
    were read, stamped with the time of the pass; if there is no such
    process, it is what the cache held for that pid before the pass. *)
Theorem cache_after_pass e sort_by (c : gmap Z io_entry) :
  ∃ out c', get_processes e sort_by c = Ok (out, c') ∧
    ∀ pid,
      c' !! pid =
        if decide (pid ∈ p_pid <$> filter kept (process_iter e)) then
          match last (filter (writes pid) (process_iter e)) with
          | Some p => entry_at (time_time e) p
          | None => c !! pid
          end
        else None.
Proof.
  eexists _, _. split; [apply get_processes_Ok|].
  intros pid. apply (pass_cache_lookup e sort_by c _ _ pid (get_processes_Ok e sort_by c)).
Qed.

(** The cache after a pass depends on the cache before, the clock and
    the enumeration only: not on the GPU tool, the number of cores, the
    machine-wide readings or the sort key. *)
Theorem cache_ignores_tool_and_key e1 e2 sort_by1 sort_by2 (c : gmap Z io_entry) :
  time_time e1 = time_time e2 → process_iter e1 = process_iter e2 →
  ∃ out1 out2 c', get_processes e1 sort_by1 c = Ok (out1, c') ∧
                  get_processes e2 sort_by2 c = Ok (out2, c').
Proof.
  intros Htime Hprocs.
  pose proof (get_processes_Ok e1 sort_by1 c) as Hrun1.
  pose proof (get_processes_Ok e2 sort_by2 c) as Hrun2.
  eexists _, _, _. split; [exact Hrun1|].
  rewrite Hrun2. do 2 f_equal. apply map_eq. intros pid.
  rewrite (pass_cache_lookup _ _ _ _ _ pid Hrun1), (pass_cache_lookup _ _ _ _ _ pid Hrun2).
  by rewrite Htime, Hprocs.
Qed.

(** A second pass at the same instant over the same enumeration gives
    rate 0 to every entry and leaves the cache as the first pass left
    it. *)
Theorem repeat_at_same_instant e sort_by sort_by2 (c : gmap Z io_entry) :
  ∃ out c', get_processes e sort_by c = Ok (out, c') ∧
    ∃ out2, get_processes e sort_by2 c' = Ok (out2, c') ∧
      ∀ s, s ∈ out2 → s_disk_io s = 0%Q.
Proof.
  pose proof (get_processes_Ok e sort_by c) as Hrun.
  eexists _, _. split; [exact Hrun|].
  set (c' := filter _ _) in Hrun |- *.
  pose proof (get_processes_Ok e sort_by2 c') as Hrun2.
  assert (∀ p, p ∈ process_iter e → kept p → is_Some (p_io_counters p) →
            ∃ v, c' !! p_pid p = Some v ∧ time v = time_time e) as Hstamped.
  { intros p Hp Hk Hio. rewrite (pass_cache_lookup _ _ _ _ _ (p_pid p) Hrun).
    rewrite decide_True.
    2:{ apply list_elem_of_fmap_2, list_elem_of_filter. by split. }
    destruct (last (filter (writes (p_pid p)) (process_iter e))) as [w|] eqn:Ew.
    - apply last_Some_elem_of, list_elem_of_filter in Ew as [(_ & _ & [io Hw]) _].
      unfold entry_at. rewrite Hw. by eexists.
    - apply last_None in Ew.
      assert (p ∈ filter (writes (p_pid p)) (process_iter e)) as Hin.
      { apply list_elem_of_filter. by split. }
      rewrite Ew in Hin. by apply elem_of_nil in Hin. }
  eexists. split.
  - rewrite Hrun2. do 2 f_equal. apply map_eq. intros pid.
    rewrite (pass_cache_lookup _ _ _ _ _ pid Hrun2).
    rewrite !(pass_cache_lookup _ _ _ _ _ pid Hrun).
    case_decide; [|done].
    by destruct (last (filter (writes pid) (process_iter e))).
  - intros s Hs. apply (returned_observed _ _ _ _ _ _ Hrun2) in Hs.
    pose proof (process_loop_rates_zero (or_one (cpu_count e)) (time_time e)
                  (gpu_map_of (tool e)) (process_iter e) c') as Hzero.
    rewrite Forall_forall in Hzero. apply Hzero; [|exact Hs].
    intros p Hp Hk Hio. destruct (Hstamped p Hp Hk Hio) as (v & Hv & Ht).
    exists v. split; [done|]. rewrite Ht. apply Qle_refl.
Qed.

(** When no counter read in the pass is below the bytes cached for its
    pid, no returned rate is negative. *)
Theorem rates_nonnegative e sort_by (c : gmap Z io_entry) :
  (∀ p io prev, p ∈ process_iter e → p_io_counters p = Some io →
                c !! p_pid p = Some prev →
                (bytes prev ≤ read_bytes io + write_bytes io)%Z) →
  ∃ out c', get_processes e sort_by c = Ok (out, c') ∧
    ∀ s, s ∈ out → (0 <= s_disk_io s)%Q.
Proof.
  intros Hup. eexists _, _. split; [apply get_processes_Ok|].
  pose proof (get_processes_Ok e sort_by c) as Hrun.
  intros s Hs. apply (returned_observed _ _ _ _ _ _ Hrun) in Hs.
  pose proof (process_loop_rates_nonneg (or_one (cpu_count e)) (time_time e)
                (gpu_map_of (tool e)) (process_iter e) c) as Hnn.
  rewrite Forall_forall in Hnn. apply Hnn; [|exact Hs].
  intros p io prev Hp Hio Hprev. left. by eapply Hup.
Qed.

End CacheAfter.

(** ** The global probe *)

Lemma float_Ok `{Builtins} f q : float f = Ok q ↔ py_float f = Some q.
Proof. unfold float. destruct (py_float f); naive_solver. Qed.

Lemma mapM_float_Ok `{Builtins} fields vals :
  mapM float fields = Ok vals ↔ Forall2 (fun f v => py_float f = Some v) fields vals.
Proof.
  revert vals. induction fields as [|f fields IH]; intros vals; simpl.
  { split; [intros [= <-]; constructor|by intros ->%Forall2_nil_inv_l]. }
  destruct (float f) as [q|err] eqn:Ef; simpl.
  - apply float_Ok in Ef.
    destruct (mapM float fields) as [vs|err] eqn:Evs; simpl.
    + split.
      * intros [= <-]. constructor; [done|]. by apply IH.
      * intros (v & vs' & Hv & Hvs & ->)%Forall2_cons_inv_l.
        apply IH in Hvs. by simplify_eq.
    + split; [done|].
      intros (v & vs' & Hv & Hvs & ->)%Forall2_cons_inv_l.
      apply IH in Hvs. congruence.
  - split; [done|].
    intros (v & vs' & Hv & _)%Forall2_cons_inv_l.
    apply float_Ok in Hv. congruence.
Qed.

Section Global.
Context `{Builtins}.

Lemma gpu_stats_try_Ok t g :
  gpu_stats_try t = Ok g ↔
  ∃ name_output stats_output v0 v1 v2 rest,
    check_output_hidden t query_gpu_name = Ok name_output ∧
    check_output_hidden t query_gpu_stats = Ok stats_output ∧
    Forall2 (fun f v => py_float f = Some v)
      (Str.split Str.comma (first_line stats_output)) (v0 :: v1 :: v2 :: rest) ∧
    g = {| g_percent := v0; g_name := first_line name_output;
           g_memory := {| gm_used := v2 * 1024 * 1024;
                          gm_total := v1 * 1024 * 1024 |} |}.
Proof.
  unfold gpu_stats_try. split.
  - destruct (check_output_hidden t query_gpu_name) as [name_output|]; simpl; [|done].
    rewrite index_first_line. simpl.
    destruct (check_output_hidden t query_gpu_stats) as [stats_output|]; simpl; [|done].
    rewrite index_first_line. simpl.
    destruct (mapM float _) as [vals|] eqn:Evals; simpl; [|done].
    apply mapM_float_Ok in Evals.
    destruct vals as [|v0 [|v1 [|v2 rest]]]; simpl; try done.
    intros [= <-]. by exists name_output, stats_output, v0, v1, v2, rest.
  - intros (name_output & stats_output & v0 & v1 & v2 & rest & -> & -> & Hvals & ->).
    simpl. rewrite !index_first_line. simpl.
    apply mapM_float_Ok in Hvals. by rewrite Hvals.
Qed.

(** With the tool on the PATH, both queries answered and every field of
    the first line of the statistics a number, at least three of them,
    the GPU record is read from the first lines only: the name is the
    first line of the name query, the percentage the first number, total
    and used memory the second and third numbers times 1024 * 1024.
    Numbers after the third are converted but not used, and further
    lines are not looked at.  The other readings are passed on as psutil
    gave them. *)
Theorem gpu_stats_parsed e name_output stats_output v0 v1 v2 rest :
  which_nvidia_smi (tool e) = true →
  check_output_hidden (tool e) query_gpu_name = Ok name_output →
  check_output_hidden (tool e) query_gpu_stats = Ok stats_output →
  Forall2 (fun f v => py_float f = Some v)
    (Str.split Str.comma (first_line stats_output)) (v0 :: v1 :: v2 :: rest) →
  get_system_stats e =
    Ok {| st_cpu := cpu_percent e; st_memory := virtual_memory e;
          st_disk := disk_usage e;
          st_gpu := {| g_percent := v0; g_name := first_line name_output;
                       g_memory := {| gm_used := v2 * 1024 * 1024;
                                      gm_total := v1 * 1024 * 1024 |} |} |}.
Proof.
  intros Hwhich Hname Hstats Hvals.
  unfold get_system_stats, gpu_probe. rewrite Hwhich.
  assert (gpu_stats_try (tool e) = Ok
            {| g_percent := v0; g_name := first_line name_output;
               g_memory := {| gm_used := v2 * 1024 * 1024;
                              gm_total := v1 * 1024 * 1024 |} |}) as ->; [|done].
  apply gpu_stats_try_Ok. by exists name_output, stats_output, v0, v1, v2, rest.
Qed.


End Global.

(** ** White space around the answers of the tool *)

Lemma lstrip_space_app w s : all_space w = true → Str.lstrip (w ++ s) = Str.lstrip s.
Proof.
  induction w as [|c w IH]; simpl; [done|].
  intros [Hc Hw]%andb_true_iff. rewrite Hc. by apply IH.
Qed.

Lemma lstrip_space w : all_space w = true → Str.lstrip w = "".
Proof.
  induction w as [|c w IH]; simpl; [done|].
  intros [Hc Hw]%andb_true_iff. rewrite Hc. by apply IH.
Qed.

Lemma rstrip_space w : all_space w = true → Str.rstrip w = "".
Proof.
  induction w as [|c w IH]; simpl; [done|].
  intros [Hc Hw]%andb_true_iff. by rewrite IH, Hc.
Qed.

Lemma rstrip_app_space s w : all_space w = true → Str.rstrip (s ++ w) = Str.rstrip s.
Proof.
  intros Hw. induction s as [|c s IH]; simpl; [by apply rstrip_space|].
  by rewrite IH.
Qed.

Lemma strip_padded w1 s w2 :
  all_space w1 = true → all_space w2 = true → Str.strip (w1 ++ s ++ w2) = Str.strip s.
Proof.
  intros H1 H2. unfold Str.strip. rewrite lstrip_space_app by done.
  induction s as [|c s IH]; simpl.
  - by rewrite lstrip_space.
  - destruct (Str.isspace c); [done|].
    change (String c (s ++ w2)) with (String c s ++ w2). by apply rstrip_app_space.
Qed.

Section Padding.
Context `{Builtins}.

Lemma gpu_stats_try_padded w1 w2 t :
  all_space w1 = true → all_space w2 = true →
  gpu_stats_try (padded w1 w2 t) = gpu_stats_try t.
Proof.
  intros H1 H2. unfold gpu_stats_try. simpl.
  destruct (check_output_hidden t query_gpu_name) as [name_output|]; simpl; [|done].
  rewrite strip_padded by done.
  destruct (index _ 0) as [gpu_name|]; simpl; [|done].
  destruct (check_output_hidden t query_gpu_stats) as [stats_output|]; simpl; [|done].
  by rewrite strip_padded.
Qed.

Lemma gpu_map_of_padded w1 w2 t :
  all_space w1 = true → all_space w2 = true → gpu_map_of (padded w1 w2 t) = gpu_map_of t.
Proof.
  intros H1 H2. unfold gpu_map_of. simpl.
  destruct (which_nvidia_smi t); [|done].
  destruct (check_output_hidden t query_compute_apps) as [output|]; [|done].
  unfold gpu_rows, output_lines. by rewrite strip_padded.
Qed.

(** White space (blank lines included) before and after what the tool
    prints changes nothing in what the two calls return. *)
Theorem surrounding_space_ignored e t w1 w2 sort_by (c : gmap Z io_entry) :
  all_space w1 = true → all_space w2 = true →
  get_system_stats (with_tool e (padded w1 w2 t)) = get_system_stats (with_tool e t) ∧
  get_processes (with_tool e (padded w1 w2 t)) sort_by c
  = get_processes (with_tool e t) sort_by c.
Proof.
  intros H1 H2. split.
  - unfold get_system_stats, gpu_probe. simpl.
    by rewrite gpu_stats_try_padded.
  - rewrite !get_processes_Ok. unfold observed. simpl.
    by rewrite gpu_map_of_padded.
Qed.

End Padding.

(** ** [_check_output_hidden] *)


(** ** The directory of the front end *)

Lemma has_index_true fs c :
  has_index fs c = Ok true ↔
  c ≠ "" ∧ path_isdir fs c = Ok true ∧
  path_exists fs (path_join fs [c; "index.html"]) = Ok true.
Proof.
  unfold has_index. destruct (decide (c = "")) as [->|Hne].
  { rewrite bool_decide_false by (intros ?; done). naive_solver. }
  rewrite bool_decide_true by done.
  destruct (path_isdir fs c) as [[]|err]; simpl; naive_solver.
Qed.

Lemma find_static_dir_Some fs cs d :
  find_static_dir fs cs = Some d ↔
  ∃ before after, cs = (before ++ d :: after)%list ∧ has_index fs d = Ok true ∧
                  Forall (fun c => has_index fs c ≠ Ok true) before.
Proof.
  induction cs as [|c cs IH]; simpl.
  { split; [done|]. intros (before & after & Heq & _). by destruct before. }
  destruct (has_index fs c) as [[]|err] eqn:Ec; simpl.
  - split.
    + intros [= <-]. exists [], cs. by split_and!.
    + intros ([|b before] & after & Heq & Hd & Hbefore); simplify_eq/=; [done|].
      apply Forall_cons in Hbefore as [Hb _]. congruence.
  - rewrite IH. split.
    + intros (before & after & -> & Hd & Hbefore).
      exists (c :: before), after. split_and!; [done..|].
      constructor; [congruence|done].
    + intros ([|b before] & after & Heq & Hd & Hbefore); simplify_eq/=;
        [congruence|].
      apply Forall_cons in Hbefore as [_ Hbefore]. by exists before, after.
  - rewrite IH. split.
    + intros (before & after & -> & Hd & Hbefore).
      exists (c :: before), after. split_and!; [done..|].
      constructor; [congruence|done].
    + intros ([|b before] & after & Heq & Hd & Hbefore); simplify_eq/=;
        [congruence|].
      apply Forall_cons in Hbefore as [_ Hbefore]. by exists before, after.
Qed.

Lemma find_static_dir_None fs cs :
  find_static_dir fs cs = None ↔ Forall (fun c => has_index fs c ≠ Ok true) cs.
Proof.
  induction cs as [|c cs IH]; simpl; [by split|].
  destruct (has_index fs c) as [[]|err] eqn:Ec; simpl.
  - split; [done|]. intros [? _]%Forall_cons. congruence.
  - rewrite IH. split; [intros ?; constructor; [congruence|done]|].
    by intros [_ ?]%Forall_cons.
  - rewrite IH. split; [intros ?; constructor; [congruence|done]|].
    by intros [_ ?]%Forall_cons.
Qed.

(** The directory chosen is the first candidate that is not empty, is a
    directory and holds [index.html]; a candidate on which a check
    raises counts as failing.  The working directory becomes the chosen
    one when [os.chdir] accepts it and stays what it was when it
    raises. *)
Theorem static_dir_first_match fs cwd d :
  (choose_static_dir fs cwd).1 = Some d ↔
  ∃ before after,
    base_candidates fs = (before ++ d :: after)%list ∧
    (d ≠ "" ∧ path_isdir fs d = Ok true ∧
     path_exists fs (path_join fs [d; "index.html"]) = Ok true) ∧
    Forall (fun c => has_index fs c ≠ Ok true) before ∧
    (choose_static_dir fs cwd).2
      = match os_chdir fs d with Ok _ => d | Raise _ => cwd end.
Proof.
  assert ((choose_static_dir fs cwd).1 = find_static_dir fs (base_candidates fs)) as Hfst.
  { unfold choose_static_dir. destruct (find_static_dir _ _) as [x|]; [|done].
    case_bool_decide; [|done]. by destruct (os_chdir fs x). }
  rewrite Hfst, find_static_dir_Some. split.
  - intros (before & after & Hcs & Hd & Hbefore). exists before, after.
    assert (find_static_dir fs (base_candidates fs) = Some d) as Hfind.
    { apply find_static_dir_Some. by exists before, after. }
    apply has_index_true in Hd as (Hne & Hdir & Hidx). split_and!; [done..|].
    unfold choose_static_dir. rewrite Hfind.
    rewrite bool_decide_true by done. by destruct (os_chdir fs d).
  - intros (before & after & Hcs & Hd & Hbefore & _). exists before, after.
    split_and!; [done| |done]. by apply has_index_true.
Qed.

(** No directory is chosen exactly when no candidate passes the checks,
    and then the working directory is left alone. *)
Theorem static_dir_none fs cwd :
  ((choose_static_dir fs cwd).1 = None ↔
   Forall (fun c => has_index fs c ≠ Ok true) (base_candidates fs)) ∧
  ((choose_static_dir fs cwd).1 = None → (choose_static_dir fs cwd).2 = cwd).
Proof.
  assert ((choose_static_dir fs cwd).1 = find_static_dir fs (base_candidates fs)) as Hfst.
  { unfold choose_static_dir. destruct (find_static_dir _ _) as [x|]; [|done].
    case_bool_decide; [|done]. by destruct (os_chdir fs x). }
  rewrite Hfst. split; [apply find_static_dir_None|].
  intros Hnone. unfold choose_static_dir. by rewrite Hnone.
Qed.

(** ** From one pass to the next *)

Section TwoPasses.
Context `{Builtins}.

(** Two passes that both read the counters of a pid give, in the second
    one, the difference of the two totals over the difference of the two
    times, whatever the cache held before the first pass and whether or
    not the first pass returned the process among its fifty. *)
Theorem rate_between_passes e1 e2 sort_by1 sort_by2 (c : gmap Z io_entry) p1 p2 io1 io2 :
  NoDup (p_pid <$> process_iter e1) → p1 ∈ process_iter e1 → kept p1 →
  p_io_counters p1 = Some io1 →
  NoDup (p_pid <$> process_iter e2) → p2 ∈ process_iter e2 → kept p2 →
  p_io_counters p2 = Some io2 →
  p_pid p2 = p_pid p1 → (time_time e1 < time_time e2)%Q →
  ∃ out1 c1, get_processes e1 sort_by1 c = Ok (out1, c1) ∧
    ∃ out2 c2, get_processes e2 sort_by2 c1 = Ok (out2, c2) ∧
      ∀ s, s ∈ out2 → s_pid s = p_pid p1 →
        s_disk_io s =
          (inject_Z (read_bytes io2 + write_bytes io2 - (read_bytes io1 + write_bytes io1))
           / (time_time e2 - time_time e1))%Q.
Proof.
  intros Hnd1 Hin1 Hk1 Hio1 Hnd2 Hin2 Hk2 Hio2 Hpid Hlt.
  destruct (pass_at e1 sort_by1 c p1 Hnd1 Hin1 Hk1) as (out1 & c1 & Hrun1 & Hc1 & _).
  rewrite io_rate_step_lookup, Hio1 in Hc1.
  exists out1, c1. split; [done|].
  destruct (pass_at e2 sort_by2 c1 p2 Hnd2 Hin2 Hk2) as (out2 & c2 & Hrun2 & _ & Hrate & _).
  exists out2, c2. split; [done|].
  intros s Hs Hs_pid. rewrite <- Hpid in Hs_pid, Hc1. rewrite (Hrate s Hs Hs_pid).
  by apply (io_rate_step_cached (time_time e2) p2 c1 io2 _ Hio2 Hc1).
Qed.

(** A pid that no kept process of a pass has is forgotten by that pass:
    when it shows up in the next pass, its rate is 0, whatever the cache
    held for it earlier. *)
Theorem rate_after_absence e1 e2 sort_by1 sort_by2 (c : gmap Z io_entry) p :
  p_pid p ∉ p_pid <$> filter kept (process_iter e1) →
  NoDup (p_pid <$> process_iter e2) → p ∈ process_iter e2 → kept p →
  ∃ out1 c1, get_processes e1 sort_by1 c = Ok (out1, c1) ∧
    c1 !! p_pid p = None ∧
    ∃ out2 c2, get_processes e2 sort_by2 c1 = Ok (out2, c2) ∧
      ∀ s, s ∈ out2 → s_pid s = p_pid p → s_disk_io s = 0%Q.
Proof.
  intros Habsent Hnd Hin Hk.
  pose proof (get_processes_Ok e1 sort_by1 c) as Hrun1.
  set (c1 := filter _ _) in Hrun1.
  exists (take 50 (sort_desc (sort_value (key_map_get sort_by1)) (observed e1 c).1)), c1.
  split; [exact Hrun1|].
  pose proof (pass_cache_lookup _ _ _ _ _ (p_pid p) Hrun1) as Hc1.
  rewrite decide_False in Hc1 by done. split; [done|].
  destruct (pass_at e2 sort_by2 c1 p Hnd Hin Hk) as (out2 & c2 & Hrun2 & _ & Hrate & _).
  exists out2, c2. split; [exact Hrun2|].
  intros s Hs Hpid. rewrite (Hrate s Hs Hpid). by apply io_rate_step_fresh.
Qed.

End TwoPasses.

(** ** The further properties at concrete machines *)

Example two_lines_first_wins :
  get_system_stats (machine two_gpus 0 [])
  = Ok {| st_cpu := 12;
          st_memory := {| vm_total := 16000; vm_available := 6000;
                          vm_percent := 62.5; vm_used := 10000 |};
          st_disk := {| du_total := 500; du_used := 125; du_free := 375;
                        du_percent := 25 |};
          st_gpu := {| g_percent := 14; g_name := "GeForce";
                       g_memory := {| gm_used := 524288000; gm_total := 4294967296 |} |} |}.
Proof. by vm_compute. Qed.

(** A fourth field that is no number spoils the line: line 95 converts
    every field. *)
Example fourth_field_not_a_number :
  get_system_stats (machine (tool_printing "GeForce" "14, 4096, 500, x" "") 0 [])
  = Ok {| st_cpu := 12;
          st_memory := {| vm_total := 16000; vm_available := 6000;
                          vm_percent := 62.5; vm_used := 10000 |};
          st_disk := {| du_total := 500; du_used := 125; du_free := 375;
                        du_percent := 25 |};
          st_gpu := gpu_default |}.
Proof. by vm_compute. Qed.

Example dev_tree_choice : choose_static_dir dev_tree "/home" = (Some "/app/frontend", "/app/frontend").
Proof. by vm_compute. Qed.

Example old_windows_hides :
  hidden_kwargs old_windows
  = {| kw_encoding := "utf-8"; kw_stderr := -2; kw_creationflags := None;
       kw_startupinfo := Some {| dwFlags := 1; wShowWindow := 0 |} |}.
Proof. reflexivity. Qed.

Example linux_runs : _check_output_hidden linux query_gpu_stats = Ok "14, 4096, 500".
Proof. reflexivity. Qed.

Lemma returned_pids_distinct_witness :
  NoDup (p_pid <$> process_iter busy_pass) ∧
  ∃ out c', get_processes busy_pass "memory" after_first = Ok (out, c') ∧
    NoDup (s_pid <$> out).
Proof.
  assert (NoDup (p_pid <$> process_iter busy_pass)) as Hnd by decide_it.
  split; [done|].
  by apply (returned_pids_distinct busy_pass "memory" after_first).
Defined.

Lemma rates_nonnegative_witness :
  (∀ p io prev, p ∈ process_iter busy_pass → p_io_counters p = Some io →
                after_first !! p_pid p = Some prev →
                (bytes prev ≤ read_bytes io + write_bytes io)%Z) ∧
  ∃ out c', get_processes busy_pass "disk" after_first = Ok (out, c') ∧
    ∀ s, s ∈ out → (0 <= s_disk_io s)%Q.
Proof.
  assert (∀ p io prev, p ∈ process_iter busy_pass → p_io_counters p = Some io →
                after_first !! p_pid p = Some prev →
                (bytes prev ≤ read_bytes io + write_bytes io)%Z) as Hup.
  { intros p io prev Hp Hio Hprev. simpl in Hp.
    apply elem_of_cons in Hp as [->|Hp].
    - vm_compute in Hio, Hprev. injection Hio as <-. injection Hprev as <-.
      by vm_compute.
    - apply list_elem_of_singleton in Hp as ->. by vm_compute in Hprev. }
  split; [done|].
  by apply (rates_nonnegative busy_pass "disk" after_first).
Defined.

Lemma cache_ignores_tool_and_key_witness :
  time_time busy_pass = time_time busy_pass_failing ∧
  process_iter busy_pass = process_iter busy_pass_failing ∧
  ∃ out1 out2 c', get_processes busy_pass "cpu" after_first = Ok (out1, c') ∧
                  get_processes busy_pass_failing "gpu" after_first = Ok (out2, c').
Proof.
  split_and!; [done..|].
  by apply (cache_ignores_tool_and_key busy_pass busy_pass_failing "cpu" "gpu" after_first).
Defined.

Lemma gpu_stats_parsed_witness :
  which_nvidia_smi (tool gpu_pass) = true ∧
  Forall2 (fun f v => py_float f = Some v)
    (Str.split Str.comma (first_line "14, 4096, 500")) [14%Q; 4096%Q; 500%Q] ∧
  get_system_stats gpu_pass
  = Ok {| st_cpu := cpu_percent gpu_pass; st_memory := virtual_memory gpu_pass;
          st_disk := disk_usage gpu_pass;
          st_gpu := {| g_percent := 14; g_name := first_line "GeForce";
                       g_memory := {| gm_used := 500 * 1024 * 1024;
                                      gm_total := 4096 * 1024 * 1024 |} |} |}.
Proof.
  assert (Forall2 (fun f v => py_float f = Some v)
            (Str.split Str.comma (first_line "14, 4096, 500")) [14%Q; 4096%Q; 500%Q])
    as Hvals by (repeat constructor).
  split_and!; [done..|].
  by apply (gpu_stats_parsed gpu_pass "GeForce" "14, 4096, 500" 14 4096 500 []).
Defined.

Lemma surrounding_space_ignored_witness :
  all_space " " = true ∧ all_space blank_lines = true ∧
  get_system_stats (with_tool gpu_pass (padded " " blank_lines two_gpus))
  = get_system_stats (with_tool gpu_pass two_gpus) ∧
  get_processes (with_tool gpu_pass (padded " " blank_lines two_gpus)) "gpu" ∅
  = get_processes (with_tool gpu_pass two_gpus) "gpu" ∅.
Proof.
  split_and!; [done..| |];
    by apply (surrounding_space_ignored gpu_pass two_gpus " " blank_lines "gpu" ∅).
Defined.

(** Pid 100 read at time 1 with 2000 bytes and at time 4 with 4000. *)
Lemma rate_between_passes_witness :
  NoDup (p_pid <$> process_iter second_pass) ∧
  NoDup (p_pid <$> process_iter later_pass) ∧
  kept (proc 100 "a" 8 (rw 1200 800)) ∧ kept (proc 100 "a" 8 (rw 3000 1000)) ∧
  (time_time second_pass < time_time later_pass)%Q ∧
  ∃ out1 c1, get_processes second_pass "cpu" ∅ = Ok (out1, c1) ∧
    ∃ out2 c2, get_processes later_pass "disk" c1 = Ok (out2, c2) ∧
      ∀ s, s ∈ out2 → s_pid s = 100 →
        s_disk_io s = (inject_Z (3000 + 1000 - (1200 + 800)) / (4 - 1))%Q.
Proof.
  assert (NoDup (p_pid <$> process_iter second_pass)) as Hnd1 by decide_it.
  assert (NoDup (p_pid <$> process_iter later_pass)) as Hnd2 by decide_it.
  assert (kept (proc 100 "a" 8 (rw 1200 800))) as Hk1 by reflexivity.
  assert (kept (proc 100 "a" 8 (rw 3000 1000))) as Hk2 by reflexivity.
  assert (time_time second_pass < time_time later_pass)%Q as Hlt by reflexivity.
  split_and!; [done..|].
  by apply (rate_between_passes second_pass later_pass "cpu" "disk" ∅
              (proc 100 "a" 8 (rw 1200 800)) (proc 100 "a" 8 (rw 3000 1000))
              {| read_bytes := 1200; write_bytes := 800 |}
              {| read_bytes := 3000; write_bytes := 1000 |}
              Hnd1 ltac:(constructor) Hk1 eq_refl Hnd2 ltac:(constructor) Hk2 eq_refl
              eq_refl Hlt).
Defined.

(** Pid 100 is cached, a pass sees only the idle placeholder and a
    shell, and the next pass sees pid 100 again. *)
Lemma rate_after_absence_witness :
  (100 ∉ p_pid <$> filter kept (process_iter idle_pass)) ∧
  NoDup (p_pid <$> process_iter later_pass) ∧
  kept (proc 100 "a" 8 (rw 3000 1000)) ∧
  ∃ out1 c1, get_processes idle_pass "cpu" after_first = Ok (out1, c1) ∧
    c1 !! 100 = None ∧
    ∃ out2 c2, get_processes later_pass "disk" c1 = Ok (out2, c2) ∧
      ∀ s, s ∈ out2 → s_pid s = 100 → s_disk_io s = 0%Q.
Proof.
  assert (100 ∉ p_pid <$> filter kept (process_iter idle_pass)) as Habsent by decide_it.
  assert (NoDup (p_pid <$> process_iter later_pass)) as Hnd by decide_it.
  assert (kept (proc 100 "a" 8 (rw 3000 1000))) as Hk by reflexivity.
  split_and!; [done..|].
  by apply (rate_after_absence idle_pass later_pass "cpu" "disk" after_first
              (proc 100 "a" 8 (rw 3000 1000)) Habsent Hnd ltac:(constructor) Hk).
Defined.

(** C5 on a machine where the four fields order the processes
    differently. *)
Example order_by_key :
  (fun key => match get_processes mixed_load key idle_cache with
              | Ok (out, _) => s_pid <$> out
              | Raise _ => []
              end) <$> ["cpu"; "memory"; "disk"; "gpu"; "nonsense"]
  = [[1; 2; 3]; [2; 3; 1]; [3; 1; 2]; [3; 2; 1]; [1; 2; 3]].
Proof. by vm_compute. Qed.

Lemma top_fifty_sorted_witness :
  ∃ out c', get_processes mixed_load "memory" idle_cache = Ok (out, c') ∧
    (length out ≤ 50)%nat ∧
    StronglySorted (desc (fun s => default 0%Q (s_memory_percent s))) out.
Proof.
  destruct (top_fifty_sorted mixed_load "memory" idle_cache)
    as (out & c' & Hrun & Hlen & _ & Hmem & _).
  exists out, c'. split_and!; [done..|]. by apply Hmem.
Defined.
